(** * Photobooth API: the authentication and photo routes of backend/app/main.py

    The routes are embedded as functions over an explicit store (the rows of
    the [user] and [photo] tables and the names in the upload directory) in
    a state-and-exception monad: a route either returns its response or
    raises an [HTTPException], and in both cases leaves a store behind.

    What the code gets from the outside is passed in: the reading of the
    clock ([now], whole seconds, one reading per request) and the salt the
    password hasher draws.  The two libraries the routes call, python-jose
    and passlib, are modelled symbolically in [Jose] and [Passlib]. *)

From Stdlib Require Import ZArith Lia Ascii.
From stdpp Require Import base option list strings gmap.

Local Open Scope Z_scope.

(** ** python-jose: [jwt.encode] and [jwt.decode]

    A compact JWS is kept symbolic: the algorithm of its header, the key its
    signature was computed with, and the claims of its payload.  A string
    that is no compact JWS is [Malformed].  The signature of [Signed alg k c]
    verifies against a key exactly when the key is [k]. *)
Module Jose.

(** The JSON values of a claim: text and integers.  A [datetime] given to
    [jwt.encode] is stored as its POSIX time, an integer. *)
Inductive jvalue : Type :=
| JStr (s : string)
| JInt (n : Z).

#[global] Instance jvalue_eq_dec : EqDecision jvalue.
Proof. solve_decision. Defined.

Inductive token : Type :=
| Signed (alg key : string) (payload : gmap string jvalue)
| Malformed (raw : string).

#[global] Instance token_eq_dec : EqDecision token.
Proof. solve_decision. Defined.

(** [JWTError] and its two subclasses. *)
Inductive error : Type :=
| JWTError
| ExpiredSignatureError
| JWTClaimsError.

Definition encode (claims : gmap string jvalue) (key algorithm : string) : token :=
  Signed algorithm key claims.

Definition get_unverified_claims (t : token) : option (gmap string jvalue) :=
  match t with
  | Signed _ _ c => Some c
  | Malformed _ => None
  end.

(** Python's [int(s)] on text in ASCII: a decimal numeral, with single
    underscores allowed between its digits, an optional sign before it and
    blanks around it.  [None] is the [ValueError].  Digits and blanks
    outside ASCII, which [int] also reads, and the limit some versions put
    on the length of a numeral are not covered. *)
Definition is_space (c : ascii) : bool :=
  let n := nat_of_ascii c in
  ((9 <=? n) && (n <=? 13) || (28 <=? n) && (n <=? 32))%nat.

Definition digit (c : ascii) : option Z :=
  let n := nat_of_ascii c in
  if ((48 <=? n) && (n <=? 57))%nat then Some (Z.of_nat n - 48) else None.

(** The digits of a numeral; [after_digit] tells whether the character
    before was a digit, so that an underscore may follow and the numeral
    may end. *)
Fixpoint digits (cs : list ascii) (acc : Z) (after_digit : bool) : option Z :=
  match cs with
  | [] => if after_digit then Some acc else None
  | c :: cs' =>
      match digit c with
      | Some d => digits cs' (10 * acc + d) true
      | None =>
          if bool_decide (c = "_"%char) && after_digit then digits cs' acc false else None
      end
  end.

Fixpoint lstrip (cs : list ascii) : list ascii :=
  match cs with
  | c :: cs' => if is_space c then lstrip cs' else cs
  | [] => []
  end.

Definition py_int (s : string) : option Z :=
  let cs := reverse (lstrip (reverse (lstrip (String.list_ascii_of_string s)))) in
  match cs with
  | c :: cs' =>
      if bool_decide (c = "-"%char) then Z.opp <$> digits cs' 0 false
      else if bool_decide (c = "+"%char) then digits cs' 0 false
      else digits cs 0 false
  | [] => None
  end.

(** [int(v)] on a claim. *)
Definition as_int (v : jvalue) : option Z :=
  match v with
  | JInt n => Some n
  | JStr s => py_int s
  end.

Definition is_str (v : jvalue) : bool :=
  match v with
  | JStr _ => true
  | JInt _ => false
  end.

(** The validators of [_validate_claims], each giving the exception it
    raises, if any.  [decode] is called without audience, issuer, subject
    and access token, and with the default options (every [verify_*] on,
    no leeway). *)
Definition validate_iat (c : gmap string jvalue) : option error :=
  match c !! "iat" with
  | None => None
  | Some v => match as_int v with Some _ => None | None => Some JWTError end
  end.

Definition validate_nbf (now : Z) (c : gmap string jvalue) : option error :=
  match c !! "nbf" with
  | None => None
  | Some v =>
      match as_int v with
      | None => Some JWTError
      | Some nbf => if now <? nbf then Some JWTClaimsError else None
      end
  end.

Definition validate_exp (now : Z) (c : gmap string jvalue) : option error :=
  match c !! "exp" with
  | None => None
  | Some v =>
      match as_int v with
      | None => Some JWTError
      | Some exp => if exp <? now then Some ExpiredSignatureError else None
      end
  end.

(** No audience is given, so an [aud] claim never matches. *)
Definition validate_aud (c : gmap string jvalue) : option error :=
  match c !! "aud" with
  | None => None
  | Some _ => Some JWTClaimsError
  end.

Definition validate_sub (c : gmap string jvalue) : option error :=
  match c !! "sub" with
  | None => None
  | Some v => if is_str v then None else Some JWTClaimsError
  end.

Definition validate_jti (c : gmap string jvalue) : option error :=
  match c !! "jti" with
  | None => None
  | Some v => if is_str v then None else Some JWTClaimsError
  end.

(** No access token is given to compare an [at_hash] claim with. *)
Definition validate_at_hash (c : gmap string jvalue) : option error :=
  match c !! "at_hash" with
  | None => None
  | Some _ => Some JWTClaimsError
  end.

(** The first validator that raises decides. *)
Definition first_error (checks : list (option error)) : option error :=
  foldr (λ chk rest, match chk with Some e => Some e | None => rest end) None checks.

Definition validate_claims (now : Z) (c : gmap string jvalue) : option error :=
  first_error
    [ validate_iat c; validate_nbf now c; validate_exp now c; validate_aud c;
      validate_sub c; validate_jti c; validate_at_hash c ].

(** [jws.verify]: the payload, when the token is a compact JWS, the
    algorithm of its header is an allowed one and its signature verifies
    against the key. *)
Definition verify (t : token) (key : string) (algorithms : list string)
  : option (gmap string jvalue) :=
  match t with
  | Malformed _ => None
  | Signed alg k c =>
      if bool_decide (alg ∈ algorithms) && bool_decide (k = key) then Some c else None
  end.

Definition decode (now : Z) (t : token) (key : string) (algorithms : list string)
  : error + gmap string jvalue :=
  match verify t key algorithms with
  | None => inl JWTError
  | Some claims =>
      match validate_claims now claims with
      | Some e => inl e
      | None => inr claims
      end
  end.

End Jose.

Export Jose (jvalue(..), token(..)).

(** ** passlib: [CryptContext(schemes=["bcrypt"])]

    A digest is kept symbolic: the salt drawn when hashing and the secret
    hashed.  A secret is the bytes of its UTF-8 encoding.  bcrypt reads the
    first 72 bytes of a secret and no more, so [verify] accepts every secret
    that shares them with the one the digest was made from.  Both [hash]
    and [verify] raise on a secret with a NUL byte in it and on one of more
    than 4096 bytes; [None] is that exception. *)
Module Passlib.

Inductive digest : Type :=
| Bcrypt (salt secret : string).

#[global] Instance digest_eq_dec : EqDecision digest.
Proof. solve_decision. Defined.

Definition MAX_PASSWORD_SIZE : nat := 4096.

(** The secrets [hash] and [verify] take without raising. *)
Definition accepts (secret : string) : bool :=
  (String.length secret <=? MAX_PASSWORD_SIZE)%nat
  && negb (bool_decide (Ascii.zero ∈ String.list_ascii_of_string secret)).

(** What bcrypt reads of a secret. *)
Definition truncate (secret : string) : string :=
  String.string_of_list_ascii (take 72 (String.list_ascii_of_string secret)).

Definition hash (salt secret : string) : option digest :=
  if accepts secret then Some (Bcrypt salt secret) else None.

Definition verify (secret : string) (d : digest) : option bool :=
  if accepts secret then
    match d with
    | Bcrypt _ s => Some (bool_decide (truncate secret = truncate s))
    end
  else None.

End Passlib.

(** ** pydantic: [EmailStr]

    The value of an [EmailStr] field for an address of a request that
    pydantic accepts: the local part as written, the domain in lower case.
    Which texts are accepted is email-validator's matter and is not
    modelled; nor are a display name or blanks around the address, which
    pydantic takes off, nor domains outside ASCII. *)
Module EmailStr.

Definition lower (c : ascii) : ascii :=
  let n := nat_of_ascii c in
  if ((65 <=? n) && (n <=? 90))%nat then ascii_of_nat (n + 32) else c.

Fixpoint lower_all (s : string) : string :=
  match s with
  | EmptyString => EmptyString
  | String c rest => String (lower c) (lower_all rest)
  end.

Fixpoint normalise (value : string) : string :=
  match value with
  | EmptyString => EmptyString
  | String c rest =>
      if bool_decide (c = "@"%char) then String c (lower_all rest)
      else String c (normalise rest)
  end.

End EmailStr.

(** ** Models *)

Module User.
(** [id] is [None] in the code only between the construction of the object
    and its commit; a row of the table has the id the store gave it. *)
Record t : Type := mk {
  id : Z;
  email : string;
  hashed_password : Passlib.digest;
  is_active : bool;
  is_verified : bool;
  created_at : Z
}.

#[global] Instance eq_dec : EqDecision t.
Proof. solve_decision. Defined.

Definition set_is_verified (b : bool) (u : t) : t :=
  mk (id u) (email u) (hashed_password u) (is_active u) b (created_at u).

Definition set_hashed_password (h : Passlib.digest) (u : t) : t :=
  mk (id u) (email u) h (is_active u) (is_verified u) (created_at u).
End User.

Module Photo.
Record t : Type := mk {
  id : Z;
  user_id : Z;
  filename : string;
  caption : option string;
  tags : option string;
  created_at : Z
}.

#[global] Instance eq_dec : EqDecision t.
Proof. solve_decision. Defined.
End Photo.

(** ** Schemas *)

Module UserCreate.
Record t : Type := mk { email : string; password : string }.

(** The object pydantic makes of the fields of a request body. *)
Definition build (email password : string) : t := mk (EmailStr.normalise email) password.
End UserCreate.

Module UserRead.
Record t : Type := mk {
  id : Z;
  email : string;
  is_active : bool;
  is_verified : bool;
  created_at : Z
}.
End UserRead.

Module UserLogin.
Record t : Type := mk { email : string; password : string }.

Definition build (email password : string) : t := mk (EmailStr.normalise email) password.
End UserLogin.

(** The fields of the form are plain [str]: they reach [login] as sent. *)
Module OAuth2PasswordRequestForm.
Record t : Type := mk { username : string; password : string }.
End OAuth2PasswordRequestForm.

Module TokenOut.
Record t : Type := mk { access_token : token; token_type : string }.
End TokenOut.

Module UserRegisterResponse.
Record t : Type := mk {
  id : Z;
  email : string;
  is_verified : bool;
  verify_token : option token
}.
End UserRegisterResponse.

Module PasswordResetRequest.
Record t : Type := mk { email : string }.

Definition build (email : string) : t := mk (EmailStr.normalise email).
End PasswordResetRequest.

Module PasswordResetConfirm.
Record t : Type := mk { token : Jose.token; new_password : string }.
End PasswordResetConfirm.

(** The items of the list [list_photos] returns. *)
Module PhotoItem.
Record t : Type := mk {
  id : Z;
  url : string;
  caption : option string;
  created_at : Z
}.
End PhotoItem.

(** The values of the dicts the other routes return. *)
Inductive rvalue : Type :=
| RStr (s : string)
| RToken (t : token).

#[global] Instance rvalue_eq_dec : EqDecision rvalue.
Proof. solve_decision. Defined.

(** ** Config *)

Definition SECRET_KEY : string := "your-super-secret-key-change-this-in-production-123".
Definition ALGORITHM : string := "HS256".
Definition ACCESS_TOKEN_EXPIRE_MINUTES : Z := 60.

(** [timedelta(hours=h, minutes=m)], in seconds. *)
Definition timedelta (hours minutes : Z) : Z := 3600 * hours + 60 * minutes.

(** ** The store and the monad of the routes *)

Record Store : Type := mkStore {
  users : list User.t;
  photos : list Photo.t;
  uploads : gset string
}.

Record HTTPException : Type := mkHTTPException {
  status_code : Z;
  detail : string;
  headers : list (string * string)
}.

#[global] Instance HTTPException_eq_dec : EqDecision HTTPException.
Proof. solve_decision. Defined.

Definition HTTP_400_BAD_REQUEST : Z := 400.
Definition HTTP_401_UNAUTHORIZED : Z := 401.
Definition HTTP_404_NOT_FOUND : Z := 404.
Definition HTTP_500_INTERNAL_SERVER_ERROR : Z := 500.

(** What the server answers when a route lets an exception through that is
    no [HTTPException]: the session is closed without a commit. *)
Definition unhandled_exception : HTTPException :=
  mkHTTPException HTTP_500_INTERNAL_SERVER_ERROR "Internal Server Error" [].

Definition Handler (A : Type) : Type := Store → (HTTPException + A) * Store.

Definition ret {A} (a : A) : Handler A := λ s, (inr a, s).

Definition raise {A} (e : HTTPException) : Handler A := λ s, (inl e, s).

Definition bind {A B} (m : Handler A) (f : A → Handler B) : Handler B :=
  λ s, match m s with
       | (inl e, s') => (inl e, s')
       | (inr a, s') => f a s'
       end.

Notation "'let*' x := m 'in' k" := (bind m (λ x, k))
  (at level 10, x name, m at level 100, k at level 200).

Definition get_session : Handler Store := λ s, (inr s, s).

(** [session.commit()] of a change to the store. *)
Definition commit (f : Store → Store) : Handler unit := λ s, (inr tt, f s).

(** ** Helper functions *)

Definition get_password_hash (salt password : string) : option Passlib.digest :=
  Passlib.hash salt password.

Definition verify_password (plain_password : string) (hashed_password : Passlib.digest)
  : option bool :=
  Passlib.verify plain_password hashed_password.

(** [expires_delta or timedelta(minutes=ACCESS_TOKEN_EXPIRE_MINUTES)]: the
    default also stands in for a zero [timedelta], which is falsy. *)
Definition expires_or_default (expires_delta : option Z) : Z :=
  match expires_delta with
  | Some d => if d =? 0 then timedelta 0 ACCESS_TOKEN_EXPIRE_MINUTES else d
  | None => timedelta 0 ACCESS_TOKEN_EXPIRE_MINUTES
  end.

Definition create_access_token (now : Z) (data : gmap string jvalue)
    (expires_delta : option Z) : token :=
  let to_encode := data in
  let expire := now + expires_or_default expires_delta in
  let to_encode := <["exp" := JInt expire]> to_encode in
  Jose.encode to_encode SECRET_KEY ALGORITHM.

Definition decode_token (now : Z) (token : Jose.token) : option (gmap string jvalue) :=
  match Jose.decode now token SECRET_KEY [ALGORITHM] with
  | inr payload => Some payload
  | inl _ => None
  end.

(** [select(User).where(User.email == email)] and [.first()]; the rows are
    kept in the order of their insertion. *)
Definition get_user_by_email (session : Store) (email : string) : option User.t :=
  head (filter (λ u, User.email u = email) (users session)).

Definition credentials_exception : HTTPException :=
  mkHTTPException HTTP_401_UNAUTHORIZED "Could not validate credentials"
    [("WWW-Authenticate", "Bearer")].

(** The [sub] claim of a decoded payload is text ([Jose.validate_sub]); the
    email of no row equals a number. *)
Definition get_current_user (now : Z) (token : Jose.token) : Handler User.t :=
  match decode_token now token with
  | None => raise credentials_exception
  | Some payload =>
      match payload !! "sub" with
      | None => raise credentials_exception
      | Some email =>
          let* session := get_session in
          match email with
          | JStr email =>
              match get_user_by_email session email with
              | None => raise credentials_exception
              | Some user => ret user
              end
          | JInt _ => raise credentials_exception
          end
      end
  end.

(** Python's truth value of [payload.get(k)] and of a payload. *)
Definition truthy (v : option jvalue) : bool :=
  match v with
  | None => false
  | Some (JStr s) => negb (bool_decide (s = ""))
  | Some (JInt n) => negb (n =? 0)
  end.

Definition truthy_payload (payload : option (gmap string jvalue)) : bool :=
  match payload with
  | None => false
  | Some p => negb (bool_decide (p = ∅))
  end.

(** ** The session's writes *)

(** The id the store gives a new row: one more than the largest in the
    table, 1 in an empty table. *)
Definition next_id (ids : list Z) : Z :=
  match ids with
  | [] => 1
  | i :: rest => 1 + foldr Z.max i rest
  end.

(** [session.add(user); session.commit(); session.refresh(user)] of a new
    user: the unique index on [email] refuses a second row with the email
    ([None], the exception the route catches); otherwise the row is
    appended under a new id and returned. *)
Definition add_user (new_user : Z → User.t) (s : Store) : option (User.t * Store) :=
  let user := new_user (next_id (User.id <$> users s)) in
  if bool_decide (User.email user ∈ User.email <$> users s) then None
  else Some (user, mkStore (users s ++ [user]) (photos s) (uploads s)).

(** [session.add(user); session.commit()] of a loaded user after an
    attribute was set: the row of its primary key is updated. *)
Definition update_user (user : User.t) (change : User.t → User.t) : Handler unit :=
  commit (λ s,
    mkStore ((λ r, if bool_decide (User.id r = User.id user) then change r else r) <$> users s)
            (photos s) (uploads s)).

(** [session.delete(photo); session.commit()]. *)
Definition delete_photo_row (photo : Photo.t) : Handler unit :=
  commit (λ s,
    mkStore (users s)
            (filter (λ r, Photo.id r ≠ Photo.id photo) (photos s))
            (uploads s)).

(** [if os.path.exists(file_path): os.remove(file_path)]. *)
Definition remove_upload (filename : string) : Handler unit :=
  commit (λ s, mkStore (users s) (photos s) (uploads s ∖ {[filename]})).

(** ** Auth routes *)

Definition register (now : Z) (salt : string) (user_data : UserCreate.t)
  : Handler UserRegisterResponse.t :=
  let* session := get_session in
  match get_user_by_email session (UserCreate.email user_data) with
  | Some _ =>
      raise (mkHTTPException HTTP_400_BAD_REQUEST "Email already registered" [])
  | None =>
      match get_password_hash salt (UserCreate.password user_data) with
      | None => raise unhandled_exception
      | Some hashed_password =>
          let user := λ id,
            User.mk id (UserCreate.email user_data) hashed_password true false now in
          match add_user user session with
          | None =>
              raise (mkHTTPException HTTP_500_INTERNAL_SERVER_ERROR "Failed to create user" [])
          | Some (user, session') =>
              let* _ := commit (λ _, session') in
              let verify_token :=
                create_access_token now
                  {[ "sub" := JStr (User.email user); "type" := JStr "email_verification" ]}
                  (Some (timedelta 24 0)) in
              ret (UserRegisterResponse.mk (User.id user) (User.email user)
                     (User.is_verified user) (Some verify_token))
          end
      end
  end.

Definition login (now : Z) (form_data : OAuth2PasswordRequestForm.t) : Handler TokenOut.t :=
  let* session := get_session in
  match get_user_by_email session (OAuth2PasswordRequestForm.username form_data) with
  | None =>
      raise (mkHTTPException HTTP_400_BAD_REQUEST "Incorrect email or password" [])
  | Some user =>
      match verify_password (OAuth2PasswordRequestForm.password form_data)
              (User.hashed_password user) with
      | None => raise unhandled_exception
      | Some verified =>
          if negb verified
          then raise (mkHTTPException HTTP_400_BAD_REQUEST "Incorrect email or password" [])
          else if negb (User.is_active user)
          then raise (mkHTTPException HTTP_400_BAD_REQUEST "Account is deactivated" [])
          else
            let access_token :=
              create_access_token now {[ "sub" := JStr (User.email user) ]} None in
            ret (TokenOut.mk access_token "bearer")
      end
  end.

Definition login_json (now : Z) (user_data : UserLogin.t) : Handler TokenOut.t :=
  let* session := get_session in
  match get_user_by_email session (UserLogin.email user_data) with
  | None =>
      raise (mkHTTPException HTTP_400_BAD_REQUEST "Incorrect email or password" [])
  | Some user =>
      match verify_password (UserLogin.password user_data) (User.hashed_password user) with
      | None => raise unhandled_exception
      | Some verified =>
          if negb verified
          then raise (mkHTTPException HTTP_400_BAD_REQUEST "Incorrect email or password" [])
          else if negb (User.is_active user)
          then raise (mkHTTPException HTTP_400_BAD_REQUEST "Account is deactivated" [])
          else
            let access_token :=
              create_access_token now {[ "sub" := JStr (User.email user) ]} None in
            ret (TokenOut.mk access_token "bearer")
      end
  end.

Definition get_current_user_info (now : Z) (token : Jose.token) : Handler UserRead.t :=
  let* current_user := get_current_user now token in
  ret (UserRead.mk (User.id current_user) (User.email current_user)
         (User.is_active current_user) (User.is_verified current_user)
         (User.created_at current_user)).

(** The row the two confirming routes load: the first whose email equals
    the [sub] claim. *)
Definition first_user_where_email (session : Store) (email : option jvalue) : option User.t :=
  match email with
  | Some (JStr email) => head (filter (λ u, User.email u = email) (users session))
  | _ => None
  end.

Definition verify_email (now : Z) (token : Jose.token) : Handler (gmap string rvalue) :=
  let payload := decode_token now token in
  if negb (truthy_payload payload)
     || bool_decide (payload ≫= (.!! "type") ≠ Some (JStr "email_verification"))
  then raise (mkHTTPException HTTP_400_BAD_REQUEST "Invalid or expired verification token" [])
  else
    let email := payload ≫= (.!! "sub") in
    if negb (truthy email)
    then raise (mkHTTPException HTTP_400_BAD_REQUEST "Invalid token" [])
    else
      let* session := get_session in
      match first_user_where_email session email with
      | None => raise (mkHTTPException HTTP_404_NOT_FOUND "User not found" [])
      | Some user =>
          let* _ := update_user user (User.set_is_verified true) in
          ret {[ "message" := RStr "Email verified successfully" ]}
      end.

Definition request_password_reset (now : Z) (reset_data : PasswordResetRequest.t)
  : Handler (gmap string rvalue) :=
  let* session := get_session in
  match get_user_by_email session (PasswordResetRequest.email reset_data) with
  | None => ret {[ "message" := RStr "If the email exists, a reset link will be sent" ]}
  | Some user =>
      let reset_token :=
        create_access_token now
          {[ "sub" := JStr (User.email user); "type" := JStr "password_reset" ]}
          (Some (timedelta 1 0)) in
      ret {[ "message" := RStr "Password reset token generated";
             "reset_token" := RToken reset_token ]}
  end.

Definition confirm_password_reset (now : Z) (salt : string)
    (reset_data : PasswordResetConfirm.t) : Handler (gmap string rvalue) :=
  let payload := decode_token now (PasswordResetConfirm.token reset_data) in
  if negb (truthy_payload payload)
     || bool_decide (payload ≫= (.!! "type") ≠ Some (JStr "password_reset"))
  then raise (mkHTTPException HTTP_400_BAD_REQUEST "Invalid or expired reset token" [])
  else
    let email := payload ≫= (.!! "sub") in
    if negb (truthy email)
    then raise (mkHTTPException HTTP_400_BAD_REQUEST "Invalid token" [])
    else
      let* session := get_session in
      match first_user_where_email session email with
      | None => raise (mkHTTPException HTTP_404_NOT_FOUND "User not found" [])
      | Some user =>
          match get_password_hash salt (PasswordResetConfirm.new_password reset_data) with
          | None => raise unhandled_exception
          | Some hashed_password =>
              let* _ := update_user user (User.set_hashed_password hashed_password) in
              ret {[ "message" := RStr "Password reset successfully" ]}
          end
      end.

(** ** Photo routes *)

(** [.offset(skip)] and [.limit(limit)] as SQLite reads them: a negative
    offset is none, a negative limit is no limit. *)
Definition sql_offset {A} (skip : Z) (rows : list A) : list A := drop (Z.to_nat skip) rows.

Definition sql_limit {A} (limit : Z) (rows : list A) : list A :=
  if limit <? 0 then rows else take (Z.to_nat limit) rows.

(** The statement [list_photos] executes. *)
Definition select_photos (session : Store) (current_user : User.t) (skip limit : Z)
  : list Photo.t :=
  sql_limit limit
    (sql_offset skip
       (filter (λ p, Photo.user_id p = User.id current_user) (photos session))).

(** The dict the list comprehension of [list_photos] builds of a row. *)
Definition photo_item (photo : Photo.t) : PhotoItem.t :=
  PhotoItem.mk (Photo.id photo) ("/uploads/" +:+ Photo.filename photo)
    (Photo.caption photo) (Photo.created_at photo).

Definition list_photos (now : Z) (token : Jose.token) (skip limit : Z)
  : Handler (list PhotoItem.t) :=
  let* current_user := get_current_user now token in
  let* session := get_session in
  let photos := select_photos session current_user skip limit in
  ret (photo_item <$> photos).

Definition delete_photo (now : Z) (token : Jose.token) (photo_id : Z)
  : Handler (gmap string rvalue) :=
  let* current_user := get_current_user now token in
  let* session := get_session in
  match head (filter (λ p, Photo.id p = photo_id ∧ Photo.user_id p = User.id current_user)
                (photos session)) with
  | None => raise (mkHTTPException HTTP_404_NOT_FOUND "Photo not found" [])
  | Some photo =>
      let* _ := remove_upload (Photo.filename photo) in
      let* _ := delete_photo_row photo in
      ret {[ "message" := RStr "Photo deleted successfully" ]}
  end.

(** ** os.path: [splitext], as posixpath has it *)
Module OsPath.

(** [p.rfind(c)] while scanning from index [i]: the last index of [c], or
    [last] when there is none. *)
Fixpoint rfind_from (c : ascii) (p : list ascii) (i last : Z) : Z :=
  match p with
  | [] => last
  | x :: p' => rfind_from c p' (i + 1) (if bool_decide (x = c) then i else last)
  end.

Definition rfind (c : ascii) (p : list ascii) : Z := rfind_from c p 0 (-1).

(** [p[i:j]] for indices that are not negative. *)
Definition slice (p : list ascii) (i j : Z) : list ascii :=
  take (Z.to_nat (j - i)) (drop (Z.to_nat i) p).

(** The extension is everything from the last dot on, when that dot comes
    after the last separator and after a character of the file name that is
    no dot. *)
Definition splitext (p : string) : string * string :=
  let cs := String.list_ascii_of_string p in
  let sepIndex := rfind "/"%char cs in
  let dotIndex := rfind "."%char cs in
  if (sepIndex <? dotIndex)
     && existsb (λ x, negb (bool_decide (x = "."%char))) (slice cs (sepIndex + 1) dotIndex)
  then (String.string_of_list_ascii (take (Z.to_nat dotIndex) cs),
        String.string_of_list_ascii (drop (Z.to_nat dotIndex) cs))
  else (p, "").

End OsPath.

(** ** The remaining routes *)

Definition read_root : Handler (gmap string rvalue) :=
  ret {[ "message" := RStr "Photobooth API is running"; "version" := RStr "1.0.0" ]}.

Module HealthOut.
Record t : Type := mk { status : string; timestamp : Z }.
End HealthOut.

Definition health_check (now : Z) : Handler HealthOut.t :=
  ret (HealthOut.mk "healthy" now).

(** What [upload_photo] is given of the [UploadFile]. *)
Module UploadFile.
Record t : Type := mk { filename : string; content_type : option string }.
End UploadFile.

(** The dict [upload_photo] returns. *)
Module UploadOut.
Record t : Type := mk {
  id : Z;
  filename : string;
  url : string;
  caption : option string;
  created_at : Z
}.
End UploadOut.

(** How the write of the uploaded file ends: written; [open] raised, and
    there is no file; or the copy raised, and the file [open] made stays. *)
Inductive write_outcome : Type :=
| Written
| OpenFailed (e : string)
| CopyFailed (e : string).

(** [with open(file_path, "wb") as buffer: shutil.copyfileobj(...)] in its
    [try]: the text of the exception, if one was raised. *)
Definition write_upload (filename : string) (outcome : write_outcome) : Handler (option string) :=
  λ s,
    match outcome with
    | Written => (inr None, mkStore (users s) (photos s) ({[filename]} ∪ uploads s))
    | OpenFailed e => (inr (Some e), s)
    | CopyFailed e => (inr (Some e), mkStore (users s) (photos s) ({[filename]} ∪ uploads s))
    end.

(** [session.add(photo); session.commit(); session.refresh(photo)]: the
    photo table has no constraint but its primary key. *)
Definition add_photo (new_photo : Z → Photo.t) : Handler Photo.t :=
  λ s,
    let photo := new_photo (next_id (Photo.id <$> photos s)) in
    (inr photo, mkStore (users s) (photos s ++ [photo]) (uploads s)).

Definition allowed_types : list string :=
  ["image/jpeg"; "image/png"; "image/gif"; "image/webp"].

(** [uuid_hex] is the [uuid.uuid4().hex] the route draws. *)
Definition upload_photo (now : Z) (token : Jose.token) (uuid_hex : string)
    (outcome : write_outcome) (file : UploadFile.t) (caption : option string)
  : Handler UploadOut.t :=
  let* current_user := get_current_user now token in
  if negb (bool_decide (UploadFile.content_type file ∈ Some <$> allowed_types))
  then raise (mkHTTPException HTTP_400_BAD_REQUEST "Only image files are allowed" [])
  else
    let file_extension :=
      let ext := snd (OsPath.splitext (UploadFile.filename file)) in
      if bool_decide (ext = "") then ".jpg" else ext in
    let filename := uuid_hex +:+ file_extension in
    let* failed := write_upload filename outcome in
    match failed with
    | Some e =>
        raise (mkHTTPException HTTP_500_INTERNAL_SERVER_ERROR
                 ("Failed to save file: " +:+ e) [])
    | None =>
        let* photo :=
          add_photo (λ id, Photo.mk id (User.id current_user) filename caption None now) in
        ret (UploadOut.mk (Photo.id photo) (Photo.filename photo)
               ("/uploads/" +:+ Photo.filename photo) (Photo.caption photo)
               (Photo.created_at photo))
    end.

(** ** The routes together *)

(** A request to one of the routes, with what the route draws while it
    serves it. *)
Inductive Request : Type :=
| GetRoot
| GetHealth
| PostRegister (salt : string) (user_data : UserCreate.t)
| PostLogin (form_data : OAuth2PasswordRequestForm.t)
| PostLoginJson (user_data : UserLogin.t)
| GetUsersMe (token : Jose.token)
| PostVerifyEmail (token : Jose.token)
| PostResetPasswordRequest (reset_data : PasswordResetRequest.t)
| PostResetPasswordConfirm (salt : string) (reset_data : PasswordResetConfirm.t)
| PostPhotosUpload (token : Jose.token) (uuid_hex : string) (outcome : write_outcome)
    (file : UploadFile.t) (caption : option string)
| GetPhotos (token : Jose.token) (skip limit : Z)
| DeletePhotos (token : Jose.token) (photo_id : Z).

(** The exception a run raised, if any, and the store it left. *)
Definition outcome_of {A} (r : (HTTPException + A) * Store) : option HTTPException * Store :=
  (match fst r with inl e => Some e | inr _ => None end, snd r).

Definition serve (now : Z) (req : Request) (s : Store) : option HTTPException * Store :=
  match req with
  | GetRoot => outcome_of (read_root s)
  | GetHealth => outcome_of (health_check now s)
  | PostRegister salt user_data => outcome_of (register now salt user_data s)
  | PostLogin form_data => outcome_of (login now form_data s)
  | PostLoginJson user_data => outcome_of (login_json now user_data s)
  | GetUsersMe token => outcome_of (get_current_user_info now token s)
  | PostVerifyEmail token => outcome_of (verify_email now token s)
  | PostResetPasswordRequest reset_data => outcome_of (request_password_reset now reset_data s)
  | PostResetPasswordConfirm salt reset_data =>
      outcome_of (confirm_password_reset now salt reset_data s)
  | PostPhotosUpload token uuid_hex outcome file caption =>
      outcome_of (upload_photo now token uuid_hex outcome file caption s)
  | GetPhotos token skip limit => outcome_of (list_photos now token skip limit s)
  | DeletePhotos token photo_id => outcome_of (delete_photo now token photo_id s)
  end.

(** The store after a sequence of requests, each with the reading of the
    clock it is served at. *)
Definition serve_all (reqs : list (Z * Request)) (s : Store) : Store :=
  foldl (λ st r, snd (serve (fst r) (snd r) st)) s reqs.

(** ** The vocabulary of the properties *)

(** An Identity with the email exists. *)
Definition registered (s : Store) (email : string) : Prop :=
  email ∈ User.email <$> users s.

#[global] Instance registered_dec (s : Store) (email : string) :
  Decision (registered s email).
Proof. unfold registered. apply _. Defined.

(** The signature of the token verifies against the process-wide key, and
    [c] is what it carries. *)
Definition signed_claims (t : token) (c : gmap string jvalue) : Prop :=
  Jose.verify t SECRET_KEY [ALGORITHM] = Some c.

(** The token carries the purpose tag [p], whoever signed it. *)
Definition has_purpose (t : token) (p : string) : Prop :=
  ∃ c, Jose.get_unverified_claims t = Some c ∧ c !! "type" = Some (JStr p).

(** The expiry instant the token carries is before [now], whoever signed it. *)
Definition expired (now : Z) (t : token) : Prop :=
  ∃ c e, Jose.get_unverified_claims t = Some c ∧ c !! "exp" = Some (JInt e) ∧ e < now.

(** Claims of the kind the routes issue: none of the registered claims
    [iat], [nbf], [aud], [jti], [at_hash], and a subject that is text. *)
Definition app_claims (c : gmap string jvalue) : Prop :=
  (∀ k, k ∈ ["iat"; "nbf"; "aud"; "jti"; "at_hash"] → c !! k = None) ∧
  (∀ v, c !! "sub" = Some v → Jose.is_str v = true).

(** The claims [create_access_token] puts into a token. *)
Definition issued_claims (now : Z) (data : gmap string jvalue) (expires_delta : option Z)
  : gmap string jvalue :=
  <["exp" := JInt (now + expires_or_default expires_delta)]> data.

(** The rows after [update_user user change]. *)
Definition updated (user : User.t) (change : User.t → User.t) (s : Store) : Store :=
  mkStore ((λ r, if bool_decide (User.id r = User.id user) then change r else r) <$> users s)
    (photos s) (uploads s).

(** The primary keys and the unique index the two tables declare. *)
Definition store_ok (s : Store) : Prop :=
  NoDup (User.id <$> users s) ∧
  NoDup (User.email <$> users s) ∧
  NoDup (Photo.id <$> photos s).

(** The name [upload_photo] stores a file under. *)
Definition stored_name (uuid_hex : string) (file : UploadFile.t) : string :=
  uuid_hex +:+
  (let ext := snd (OsPath.splitext (UploadFile.filename file)) in
   if bool_decide (ext = "") then ".jpg" else ext).

(** The name has no path separator in it. *)
Definition no_sep (name : string) : Prop :=
  "/"%char ∉ String.list_ascii_of_string name.

(** The store with one more name in the upload directory, and with one
    more row in the photo table. *)
Definition with_upload (filename : string) (s : Store) : Store :=
  mkStore (users s) (photos s) ({[filename]} ∪ uploads s).

Definition with_photo (photo : Photo.t) (s : Store) : Store :=
  mkStore (users s) (photos s ++ [photo]) (uploads s).


(** Every photo belongs to an Identity of the store. *)
Definition owners_known (s : Store) : Prop :=
  ∀ p, p ∈ photos s → ∃ u, u ∈ users s ∧ User.id u = Photo.user_id p.

(** The same Identity, as far as no route may change it. *)
Definition same_identity (u u' : User.t) : Prop :=
  User.id u' = User.id u ∧ User.email u' = User.email u ∧
  User.is_active u' = User.is_active u ∧ User.created_at u' = User.created_at u ∧
  (User.is_verified u = true → User.is_verified u' = true).

(** The access token [login] issues at [now] for an email. *)
Definition access_token_for (now : Z) (email : string) : token :=
  create_access_token now {[ "sub" := JStr email ]} None.

(** The token [request_password_reset] issues at [now] for an email. *)
Definition reset_token_for (now : Z) (email : string) : token :=
  create_access_token now {[ "sub" := JStr email; "type" := JStr "password_reset" ]}
    (Some (timedelta 1 0)).

(** The token [register] issues at [now] for an email. *)
Definition verify_token_for (now : Z) (email : string) : token :=
  create_access_token now {[ "sub" := JStr email; "type" := JStr "email_verification" ]}
    (Some (timedelta 24 0)).

(** The writes the routes make: a new Identity, under a new id and an
    email no Identity has, active; a change to the rows of one id that
    keeps what [same_identity] names; a file; a photo of an Identity of the
    store, under a new id; and the removal of the rows of a photo id with
    the file of that photo. *)
Inductive write : Store → Store → Prop :=
| write_user (s : Store) (u : User.t) :
    ¬ registered s (User.email u) →
    User.id u = next_id (User.id <$> users s) →
    User.is_active u = true →
    write s (mkStore (users s ++ [u]) (photos s) (uploads s))
| write_update (s : Store) (user : User.t) (change : User.t → User.t) :
    (∀ r, same_identity r (change r)) →
    write s (updated user change s)
| write_file (s : Store) (filename : string) :
    write s (with_upload filename s)
| write_photo (s : Store) (photo : Photo.t) (user : User.t) :
    user ∈ users s →
    Photo.user_id photo = User.id user →
    Photo.id photo = next_id (Photo.id <$> photos s) →
    write s (with_photo photo s)
| write_delete (s : Store) (photo : Photo.t) :
    write s (mkStore (users s)
               (filter (λ r, Photo.id r ≠ Photo.id photo) (photos s))
               (uploads s ∖ {[ Photo.filename photo ]})).

(** ** A store and tokens to run the routes on *)

Definition store0 : Store := mkStore [] [] ∅.

Definition alice : User.t :=
  User.mk 1 "a@x.com" (Passlib.Bcrypt "salt1" "pw123") true false 1000.

(** An account that was deactivated. *)
Definition bob : User.t :=
  User.mk 2 "b@x.com" (Passlib.Bcrypt "salt2" "hunter2") false false 1001.

Definition store2 : Store :=
  mkStore [alice; bob]
    [ Photo.mk 1 1 "0a1b.jpg" (Some "sunset") None 1100;
      Photo.mk 2 2 "2c3d.png" None None 1200 ]
    {[ "0a1b.jpg"; "2c3d.png" ]}.

(** An access token of [alice], issued at 2000 and expiring at 5600. *)
Definition alice_token : token :=
  create_access_token 2000 {[ "sub" := JStr "a@x.com" ]} None.

Definition bob_token : token :=
  create_access_token 2000 {[ "sub" := JStr "b@x.com" ]} None.

(** The verification token [register] hands out for [alice] at 1000. *)
Definition alice_verify_token : token :=
  create_access_token 1000
    {[ "sub" := JStr "a@x.com"; "type" := JStr "email_verification" ]}
    (Some (timedelta 24 0)).

(** A password with a NUL byte in it. *)
Definition nul_password : string := "pw" +:+ String Ascii.zero "123".

(** The store after the registration of "A@X.COM" at 1000. *)
Definition store_capitals : Store :=
  mkStore [User.mk 1 "A@x.com" (Passlib.Bcrypt "salt1" "pw123") true false 1000] [] ∅.

Definition cat_file : UploadFile.t := UploadFile.mk "../my cat.PNG" (Some "image/png").

(** A token with [alice] as subject that another key signed. *)
Definition forged_token : token :=
  Signed "HS256" "guessed-key" {[ "sub" := JStr "a@x.com" ]}.

(** A verification token that names no subject. *)
Definition anonymous_verify_token : token :=
  create_access_token 1000 {[ "type" := JStr "email_verification" ]} None.

(** Requests on [store2]: [alice] verifies her email, uploads a photo, asks
    for a password reset and confirms it, and deletes her first photo. *)
Definition session2 : list (Z * Request) :=
  [ (1500, PostVerifyEmail alice_verify_token);
    (2100, PostPhotosUpload alice_token "00ff" Written cat_file (Some "cat"));
    (2200, PostResetPasswordRequest (PasswordResetRequest.mk "a@x.com"));
    (2300, PostResetPasswordConfirm "salt9"
             (PasswordResetConfirm.mk (reset_token_for 2200 "a@x.com") "correct horse"));
    (2400, DeletePhotos alice_token 1) ].

(** * Properties *)

(** ** Running a route *)

Lemma bind_ret {A B} (a : A) (f : A → Handler B) (s : Store) :
  bind (ret a) f s = f a s.
Proof. reflexivity. Qed.

Lemma bind_raise {A B} (e : HTTPException) (f : A → Handler B) (s : Store) :
  bind (raise e) f s = (inl e, s).
Proof. reflexivity. Qed.

Lemma bind_get_session {B} (f : Store → Handler B) (s : Store) :
  bind get_session f s = f s s.
Proof. reflexivity. Qed.

Lemma bind_commit {B} (g : Store → Store) (f : unit → Handler B) (s : Store) :
  bind (commit g) f s = f tt (g s).
Proof. reflexivity. Qed.

Ltac run :=
  repeat (rewrite ?bind_ret, ?bind_raise, ?bind_get_session, ?bind_commit; cbn beta iota).

(** ** The account table *)

Lemma head_filter_None {A} (P : A → Prop) `{∀ x, Decision (P x)} (l : list A) :
  head (filter P l) = None ↔ ∀ x, x ∈ l → ¬ P x.
Proof.
  rewrite head_None. split.
  - intros Hnil x Hx HP.
    assert (x ∈ filter P l) as Hin by (apply list_elem_of_filter; done).
    rewrite Hnil in Hin. by apply not_elem_of_nil in Hin.
  - intros Hall. destruct (filter P l) as [|y l'] eqn:E; [done|].
    assert (y ∈ filter P l) as Hin by (rewrite E; left).
    apply list_elem_of_filter in Hin as [HP Hy]. by destruct (Hall y Hy).
Qed.

Lemma head_filter_Some {A} (P : A → Prop) `{∀ x, Decision (P x)} (l : list A) (x : A) :
  head (filter P l) = Some x → x ∈ l ∧ P x.
Proof.
  intros Hh. assert (x ∈ filter P l) as Hin.
  { destruct (filter P l) as [|y l'] eqn:E; simplify_eq/=. left. }
  apply list_elem_of_filter in Hin. tauto.
Qed.

Lemma get_user_by_email_None (s : Store) (email : string) :
  get_user_by_email s email = None ↔ ¬ registered s email.
Proof.
  unfold get_user_by_email, registered. rewrite head_filter_None, list_elem_of_fmap.
  split.
  - intros Hall (u & -> & Hu). by apply (Hall u).
  - intros Hno u Hu He. apply Hno. by exists u.
Qed.

Lemma get_user_by_email_Some (s : Store) (email : string) (u : User.t) :
  get_user_by_email s email = Some u → u ∈ users s ∧ User.email u = email.
Proof. intros Hu. by apply head_filter_Some in Hu. Qed.

Lemma get_user_by_email_registered (s : Store) (email : string) :
  registered s email ↔ is_Some (get_user_by_email s email).
Proof.
  rewrite <- not_eq_None_Some, get_user_by_email_None.
  split; [tauto|]. intros Hnn. destruct (decide (registered s email)); tauto.
Qed.

(** ** Tokens *)

(** A key of the list [Hk] speaks of is not the literal of the goal. *)
Ltac key_ne Hk :=
  rewrite !elem_of_cons, elem_of_nil in Hk; intros <-;
  repeat (destruct Hk as [Hk|Hk]; [done|]); done.

Lemma verify_unverified (t : token) (key : string) (algs : list string)
    (c : gmap string jvalue) :
  Jose.verify t key algs = Some c → Jose.get_unverified_claims t = Some c.
Proof.
  destruct t as [alg k c'|raw]; simpl; [|done].
  by destruct (bool_decide (alg ∈ algs) && bool_decide (k = key)).
Qed.

Lemma decode_token_verify (now : Z) (t : token) :
  decode_token now t =
  c ← Jose.verify t SECRET_KEY [ALGORITHM];
  match Jose.validate_claims now c with Some _ => None | None => Some c end.
Proof.
  unfold decode_token, Jose.decode.
  destruct (Jose.verify t SECRET_KEY [ALGORITHM]) as [c|]; simpl; [|done].
  by destruct (Jose.validate_claims now c).
Qed.

Lemma decode_token_Some (now : Z) (t : token) (c : gmap string jvalue) :
  decode_token now t = Some c ↔ signed_claims t c ∧ Jose.validate_claims now c = None.
Proof.
  rewrite decode_token_verify. unfold signed_claims.
  destruct (Jose.verify t SECRET_KEY [ALGORITHM]) as [c'|]; simpl.
  - destruct (Jose.validate_claims now c') as [err|] eqn:Hval.
    + split; [done|]. intros [[= ->] Hc]. congruence.
    + split; [by intros [= ->]|]. by intros [[= ->] _].
  - split; [done|]. by intros [? _].
Qed.

Lemma validate_claims_expired (now : Z) (c : gmap string jvalue) (e : Z) :
  c !! "exp" = Some (JInt e) → e < now → is_Some (Jose.validate_claims now c).
Proof.
  intros He Hlt. unfold Jose.validate_claims. simpl.
  destruct (Jose.validate_iat c); [done|].
  destruct (Jose.validate_nbf now c); [done|].
  unfold Jose.validate_exp. rewrite He. simpl.
  destruct (Z.ltb_spec e now); [done|lia].
Qed.

Lemma decode_token_expired (now : Z) (t : token) :
  expired now t → decode_token now t = None.
Proof.
  intros (c & e & Hc & He & Hlt). rewrite decode_token_verify.
  destruct (Jose.verify t SECRET_KEY [ALGORITHM]) as [c'|] eqn:Hv; simpl; [|done].
  apply verify_unverified in Hv. simplify_eq.
  by destruct (validate_claims_expired now c e He Hlt) as [? ->].
Qed.

Lemma validate_claims_app (now : Z) (c : gmap string jvalue) :
  app_claims c → Jose.validate_claims now c = Jose.validate_exp now c.
Proof.
  intros [Hnone Hsub]. unfold Jose.validate_claims. simpl.
  unfold Jose.validate_iat, Jose.validate_nbf, Jose.validate_aud, Jose.validate_jti,
    Jose.validate_at_hash, Jose.validate_sub.
  rewrite (Hnone "iat"), (Hnone "nbf"), (Hnone "aud"), (Hnone "jti"), (Hnone "at_hash")
    by set_solver.
  destruct (Jose.validate_exp now c); [done|].
  destruct (c !! "sub") as [v|] eqn:Hv; [|done].
  by rewrite (Hsub v).
Qed.

Lemma create_access_token_signed (t0 : Z) (data : gmap string jvalue) (ttl : option Z) :
  signed_claims (create_access_token t0 data ttl) (issued_claims t0 data ttl).
Proof. reflexivity. Qed.

Lemma issued_claims_app (t0 : Z) (data : gmap string jvalue) (ttl : option Z) :
  app_claims data → app_claims (issued_claims t0 data ttl).
Proof.
  intros [Hnone Hsub]. unfold issued_claims. split.
  - intros k Hk. rewrite lookup_insert_ne; [by apply Hnone|]. key_ne Hk.
  - intros v. rewrite lookup_insert_ne by done. apply Hsub.
Qed.

(** A token of the routes decodes to its claims up to and including the
    second it expires in. *)
Lemma decode_token_issued (now t0 : Z) (data : gmap string jvalue) (ttl : option Z) :
  app_claims data → now ≤ t0 + expires_or_default ttl →
  decode_token now (create_access_token t0 data ttl) = Some (issued_claims t0 data ttl).
Proof.
  intros Happ Hle. apply decode_token_Some. split; [apply create_access_token_signed|].
  rewrite validate_claims_app by by apply issued_claims_app.
  unfold Jose.validate_exp, issued_claims. rewrite lookup_insert_eq. simpl.
  destruct (Z.ltb_spec (t0 + expires_or_default ttl) now); [lia|done].
Qed.

Lemma app_claims_sub (e : string) : app_claims {[ "sub" := JStr e ]}.
Proof.
  split.
  - intros k Hk. apply lookup_singleton_None. key_ne Hk.
  - intros v. rewrite lookup_singleton_eq. by intros [= <-].
Qed.

Lemma app_claims_sub_type (e p : string) :
  app_claims {[ "sub" := JStr e; "type" := JStr p ]}.
Proof.
  split.
  - intros k Hk. rewrite lookup_insert_ne, lookup_singleton_ne; [done| |]; key_ne Hk.
  - intros v. rewrite lookup_insert_eq. by intros [= <-].
Qed.

(** ** Register and login *)

Lemma get_user_by_email_app_new (us : list User.t) (ps : list Photo.t) (fs : gset string)
    (u : User.t) :
  ¬ registered (mkStore us ps fs) (User.email u) →
  get_user_by_email (mkStore (us ++ [u]) ps fs) (User.email u) = Some u.
Proof.
  intros Hnew. apply get_user_by_email_None in Hnew.
  unfold get_user_by_email in *. simpl in *.
  rewrite filter_app. apply head_None in Hnew. rewrite Hnew. simpl.
  rewrite filter_cons_True by done. done.
Qed.

Lemma verify_password_accepted (password salt secret : string) :
  Passlib.accepts password = true →
  verify_password password (Passlib.Bcrypt salt secret) =
    Some (bool_decide (Passlib.truncate password = Passlib.truncate secret)).
Proof. intros Hacc. unfold verify_password, Passlib.verify. by rewrite Hacc. Qed.

Lemma register_new (now : Z) (salt : string) (user_data : UserCreate.t) (s : Store) :
  ¬ registered s (UserCreate.email user_data) →
  Passlib.accepts (UserCreate.password user_data) = true →
  let user :=
    User.mk (next_id (User.id <$> users s)) (UserCreate.email user_data)
      (Passlib.Bcrypt salt (UserCreate.password user_data)) true false now in
  register now salt user_data s =
    (inr (UserRegisterResponse.mk (User.id user) (User.email user) false
            (Some (create_access_token now
                     {[ "sub" := JStr (User.email user);
                        "type" := JStr "email_verification" ]}
                     (Some (timedelta 24 0))))),
     mkStore (users s ++ [user]) (photos s) (uploads s)).
Proof.
  intros Hnew Hacc user. unfold register. run.
  apply get_user_by_email_None in Hnew as Hget. rewrite Hget.
  unfold get_password_hash, Passlib.hash. rewrite Hacc.
  unfold add_user. cbn beta iota zeta. fold user.
  rewrite bool_decide_eq_false_2 by done. run. done.
Qed.

(** The hasher raises, outside any [try]: nothing is written. *)
Lemma register_unhashable (now : Z) (salt : string) (user_data : UserCreate.t) (s : Store) :
  ¬ registered s (UserCreate.email user_data) →
  Passlib.accepts (UserCreate.password user_data) = false →
  register now salt user_data s = (inl unhandled_exception, s).
Proof.
  intros Hnew Hacc. unfold register. run.
  apply get_user_by_email_None in Hnew as Hget. rewrite Hget.
  unfold get_password_hash, Passlib.hash. by rewrite Hacc.
Qed.

Lemma register_existing (now : Z) (salt : string) (user_data : UserCreate.t) (s : Store)
    (u : User.t) :
  get_user_by_email s (UserCreate.email user_data) = Some u →
  register now salt user_data s =
    (inl (mkHTTPException HTTP_400_BAD_REQUEST "Email already registered" []), s).
Proof. intros Hu. unfold register. run. by rewrite Hu. Qed.

(** C8. When an Identity with the email already exists, [register] fails
    with "Email already registered" (AlreadyExists) and the store it leaves
    is the store it found: no row is added and none is changed. *)
Theorem register_already_exists (now : Z) (salt : string) (user_data : UserCreate.t)
    (s : Store) :
  registered s (UserCreate.email user_data) →
  register now salt user_data s =
    (inl (mkHTTPException HTTP_400_BAD_REQUEST "Email already registered" []), s).
Proof.
  intros Hreg. apply get_user_by_email_registered in Hreg as [u Hu].
  by apply (register_existing now salt user_data s u).
Qed.


(** C1, as the code has it. For an email no Identity has yet in the form
    [EmailStr] gives it, and a password the hasher accepts, [register]
    succeeds and stores the email in that form; [login] with the stored
    email and the same password then succeeds with a bearer token, and so
    does [login_json] with the email as it was sent to [register]; and
    [get_current_user] on that token, up to its expiry, returns the
    Identity just registered, whose email is the stored one. *)
Theorem register_login_resolve (t0 t1 t2 : Z) (salt raw_email password : string)
    (s : Store) :
  let email := EmailStr.normalise raw_email in
  ¬ registered s email →
  Passlib.accepts password = true →
  t2 ≤ t1 + timedelta 0 ACCESS_TOKEN_EXPIRE_MINUTES →
  ∃ (r : UserRegisterResponse.t) (s' : Store) (tok : TokenOut.t) (user : User.t),
    register t0 salt (UserCreate.build raw_email password) s = (inr r, s') ∧
    UserRegisterResponse.email r = email ∧
    UserRegisterResponse.is_verified r = false ∧
    login t1 (OAuth2PasswordRequestForm.mk email password) s' = (inr tok, s') ∧
    login_json t1 (UserLogin.build raw_email password) s' = (inr tok, s') ∧
    TokenOut.token_type tok = "bearer" ∧
    get_current_user t2 (TokenOut.access_token tok) s' = (inr user, s') ∧
    User.email user = email ∧
    User.id user = UserRegisterResponse.id r ∧
    user ∈ users s'.
Proof.
  intros email Hnew Hacc Hle.
  pose proof (register_new t0 salt (UserCreate.build raw_email password) s Hnew Hacc) as Hreg.
  cbn zeta in Hreg. unfold UserCreate.build in *.
  cbn [UserCreate.email UserCreate.password User.email User.id] in Hreg. fold email in Hreg.
  set (user := User.mk (next_id (User.id <$> users s)) email
                 (Passlib.Bcrypt salt password) true false t0) in *.
  set (s' := mkStore (users s ++ [user]) (photos s) (uploads s)) in *.
  assert (get_user_by_email s' email = Some user) as Hget.
  { destruct s as [us ps fs]. apply (get_user_by_email_app_new us ps fs user). exact Hnew. }
  assert (login t1 (OAuth2PasswordRequestForm.mk email password) s' =
            (inr (TokenOut.mk (access_token_for t1 email) "bearer"), s')) as Hlogin.
  { unfold login. run.
    cbn [OAuth2PasswordRequestForm.username OAuth2PasswordRequestForm.password].
    rewrite Hget. cbn [user User.hashed_password User.is_active User.email].
    rewrite (verify_password_accepted _ _ _ Hacc).
    by rewrite bool_decide_eq_true_2 by done. }
  eexists _, s', _, user. split; [exact Hreg|].
  split; [done|]. split; [done|]. split; [exact Hlogin|].
  split; [exact Hlogin|]. split; [done|].
  cbn [TokenOut.access_token]. split.
  { unfold get_current_user, access_token_for.
    rewrite decode_token_issued by (apply app_claims_sub || exact Hle).
    unfold issued_claims. rewrite lookup_insert_ne by done.
    rewrite lookup_singleton_eq. run. by rewrite Hget. }
  split; [done|]. split; [done|].
  subst s'. cbn [users]. apply elem_of_app. right. left.
Qed.

(** ** Tokens at the confirming routes *)

Lemma decode_token_claims (now : Z) (t : token) (c : gmap string jvalue) :
  decode_token now t = Some c → Jose.get_unverified_claims t = Some c.
Proof.
  intros [Hs _]%decode_token_Some. by apply verify_unverified in Hs.
Qed.

(** C3. A token carrying the purpose tag [email_verification] is refused by
    [confirm_password_reset] with "Invalid or expired reset token", whoever
    signed it and whenever it expires, and the store is left as it was: no
    password hash is changed. *)
Theorem confirm_password_reset_refuses_verification_token (now : Z) (salt : string)
    (tok : token) (new_password : string) (s : Store) :
  has_purpose tok "email_verification" →
  confirm_password_reset now salt (PasswordResetConfirm.mk tok new_password) s =
    (inl (mkHTTPException HTTP_400_BAD_REQUEST "Invalid or expired reset token" []), s).
Proof.
  intros (c & Hc & Hty). unfold confirm_password_reset. simpl.
  destruct (decode_token now tok) as [c'|] eqn:Hd; simpl; [|done].
  apply decode_token_claims in Hd. simplify_eq. rewrite Hty.
  rewrite (bool_decide_eq_true_2 (Some (JStr "email_verification") ≠ Some (JStr "password_reset")))
    by done.
  by rewrite orb_true_r.
Qed.

(** C6. A token whose expiry instant is before the clock is refused by
    [get_current_user], by [verify_email] and by [confirm_password_reset],
    whether its signature verifies or not; none of them touches the store. *)
Theorem expired_token_refused (now : Z) (salt : string) (tok : token)
    (new_password : string) (s : Store) :
  expired now tok →
  get_current_user now tok s = (inl credentials_exception, s) ∧
  verify_email now tok s =
    (inl (mkHTTPException HTTP_400_BAD_REQUEST "Invalid or expired verification token" []), s) ∧
  confirm_password_reset now salt (PasswordResetConfirm.mk tok new_password) s =
    (inl (mkHTTPException HTTP_400_BAD_REQUEST "Invalid or expired reset token" []), s).
Proof.
  intros Hexp%decode_token_expired.
  unfold get_current_user, verify_email, confirm_password_reset. simpl.
  by rewrite Hexp.
Qed.

(** ** Verifying an email *)

Lemma head_filter_fmap {A} (P : A → Prop) `{∀ x, Decision (P x)} (f : A → A) (l : list A) :
  (∀ x, P (f x) ↔ P x) →
  head (filter P (f <$> l)) = f <$> head (filter P l).
Proof.
  intros Hf. induction l as [|x l IH]; [done|]. rewrite fmap_cons.
  destruct (decide (P x)) as [HP|HP].
  - rewrite !filter_cons_True by (done || by apply Hf). done.
  - rewrite !filter_cons_False by (done || by rewrite Hf). done.
Qed.

Lemma get_user_by_email_updated (user : User.t) (change : User.t → User.t) (s : Store)
    (email : string) :
  (∀ r, User.email (change r) = User.email r) →
  get_user_by_email s email = Some user →
  get_user_by_email (updated user change s) email = Some (change user).
Proof.
  intros Hch Hu. unfold get_user_by_email, updated in *. simpl.
  rewrite head_filter_fmap.
  - rewrite Hu. simpl. by rewrite bool_decide_eq_true_2.
  - intros r. case_bool_decide; [by rewrite Hch|done].
Qed.

Lemma updated_idem (user : User.t) (change : User.t → User.t) (s : Store) :
  (∀ r, User.id (change r) = User.id r) →
  (∀ r, change (change r) = change r) →
  updated (change user) change (updated user change s) = updated user change s.
Proof.
  intros Hid Hidem. unfold updated. simpl. f_equal.
  rewrite <- list_fmap_compose. apply list_fmap_ext. intros _ r _. simpl.
  destruct (decide (User.id r = User.id user)) as [E|E].
  - rewrite (bool_decide_eq_true_2 _ E).
    rewrite bool_decide_eq_true_2 by (rewrite !Hid; exact E). apply Hidem.
  - rewrite (bool_decide_eq_false_2 _ E).
    by rewrite bool_decide_eq_false_2 by (rewrite Hid; exact E).
Qed.

(** C7. With an email-verification token that decodes at both calls and
    whose subject is the email of an Identity, [verify_email] reports
    success, the second call on the store the first one left reports
    success again and changes nothing, and the Identity of that email is
    verified after both. *)
Theorem verify_email_idempotent (now now' : Z) (tok : token) (c : gmap string jvalue)
    (email : string) (user : User.t) (s : Store) :
  decode_token now tok = Some c →
  decode_token now' tok = Some c →
  c !! "type" = Some (JStr "email_verification") →
  c !! "sub" = Some (JStr email) →
  email ≠ "" →
  get_user_by_email s email = Some user →
  ∃ (s' : Store) (user' : User.t),
    verify_email now tok s = (inr {[ "message" := RStr "Email verified successfully" ]}, s') ∧
    verify_email now' tok s' = (inr {[ "message" := RStr "Email verified successfully" ]}, s') ∧
    get_user_by_email s' email = Some user' ∧
    User.is_verified user' = true ∧
    User.id user' = User.id user.
Proof.
  intros Hd Hd' Hty Hsub Hne Hu.
  assert (c ≠ ∅) as Hc by (intros ->; by rewrite lookup_empty in Hty).
  pose proof (get_user_by_email_updated user (User.set_is_verified true) s email
                (λ _, eq_refl) Hu) as Hu'.
  assert (∀ t st u, decode_token t tok = Some c → get_user_by_email st email = Some u →
            verify_email t tok st =
              (inr {[ "message" := RStr "Email verified successfully" ]},
               updated u (User.set_is_verified true) st)) as Hrun.
  { intros t st u Ht Hst. unfold verify_email. rewrite Ht. simpl.
    rewrite (bool_decide_eq_false_2 (c = ∅)) by done. rewrite Hty, Hsub. simpl.
    rewrite (bool_decide_eq_false_2 (email = "")) by done. simpl. run.
    unfold get_user_by_email in Hst. rewrite Hst. unfold update_user. run. done. }
  exists (updated user (User.set_is_verified true) s), (User.set_is_verified true user).
  split; [by apply Hrun|]. split; [|done].
  rewrite (Hrun now' _ _ Hd' Hu'). f_equal. by apply updated_idem.
Qed.

(** ** Decoding *)

(** The purpose tag is no claim [jwt.decode] looks at. *)
Lemma validate_claims_type (now : Z) (c : gmap string jvalue) (v : jvalue) :
  Jose.validate_claims now (<["type" := v]> c) = Jose.validate_claims now c.
Proof.
  unfold Jose.validate_claims, Jose.validate_iat, Jose.validate_nbf, Jose.validate_exp,
    Jose.validate_aud, Jose.validate_sub, Jose.validate_jti, Jose.validate_at_hash.
  by rewrite !lookup_insert_ne by done.
Qed.

(** C5, as the code has it. For a token whose signature verifies against
    the process-wide key: [decode_token] returns nothing when the expiry
    instant it carries is before the clock; it returns the claims when they
    are of the kind the routes issue and carry no expiry or one not before
    the clock; and the purpose tag has no part in it: the same claims under
    another tag decode, or fail to, alike. *)
Theorem decode_token_signed (now : Z) (tok : token) (c : gmap string jvalue) :
  signed_claims tok c →
  (∀ e, c !! "exp" = Some (JInt e) → e < now → decode_token now tok = None) ∧
  (app_claims c →
   (c !! "exp" = None ∨ ∃ e, c !! "exp" = Some (JInt e) ∧ now ≤ e) →
   decode_token now tok = Some c) ∧
  (∀ v, decode_token now (Signed ALGORITHM SECRET_KEY (<["type" := v]> c)) =
        (<["type" := v]>) <$> decode_token now tok).
Proof.
  intros Hs. split; [|split].
  - intros e He Hlt. apply decode_token_expired. exists c, e.
    split; [by eapply verify_unverified|done].
  - intros Happ Hexp. apply decode_token_Some. split; [done|].
    rewrite validate_claims_app by done. unfold Jose.validate_exp.
    destruct Hexp as [->|(e & -> & Hle)]; [done|]. simpl.
    destruct (Z.ltb_spec e now); [lia|done].
  - intros v. rewrite !decode_token_verify. unfold signed_claims in Hs. rewrite Hs.
    simpl. rewrite validate_claims_type.
    by destruct (Jose.validate_claims now c).
Qed.

(** ** Asking for a password reset *)

(** C2, as the code has it. [request_password_reset] never fails and never
    touches the store, but its two responses are not the same.  When no
    Identity has the email the response is the bare message "If the email
    exists, a reset link will be sent".  When one has it the response is
    the message "Password reset token generated" with a [reset_token]: a
    token signed with the process-wide key that carries the email as
    subject, the purpose tag [password_reset] and an expiry one hour after
    the request, and that decodes up to that instant and not after it. *)
Theorem request_password_reset_response (now : Z) (reset_data : PasswordResetRequest.t)
    (s : Store) :
  let email := PasswordResetRequest.email reset_data in
  let claims : gmap string jvalue :=
    {[ "sub" := JStr email; "type" := JStr "password_reset"; "exp" := JInt (now + 3600) ]} in
  (¬ registered s email ∧
   request_password_reset now reset_data s =
     (inr {[ "message" := RStr "If the email exists, a reset link will be sent" ]}, s))
  ∨
  (registered s email ∧
   ∃ tok,
     request_password_reset now reset_data s =
       (inr {[ "message" := RStr "Password reset token generated";
               "reset_token" := RToken tok ]}, s) ∧
     signed_claims tok claims ∧
     has_purpose tok "password_reset" ∧
     (∀ t, decode_token t tok = if bool_decide (t ≤ now + 3600) then Some claims else None) ∧
     ({[ "message" := RStr "Password reset token generated"; "reset_token" := RToken tok ]}
        : gmap string rvalue) ≠
       {[ "message" := RStr "If the email exists, a reset link will be sent" ]}).
Proof.
  destruct reset_data as [email]. cbn [PasswordResetRequest.email]. cbn zeta.
  unfold request_password_reset. run. cbn [PasswordResetRequest.email].
  destruct (get_user_by_email s email) as [user|] eqn:Hu.
  2:{ left. split; [by apply get_user_by_email_None|done]. }
  right. apply get_user_by_email_Some in Hu as Hin. destruct Hin as [_ Heq]. subst email.
  split; [apply get_user_by_email_registered; by rewrite Hu|].
  assert (issued_claims now
            {[ "sub" := JStr (User.email user); "type" := JStr "password_reset" ]}
            (Some (timedelta 1 0)) =
          {[ "sub" := JStr (User.email user); "type" := JStr "password_reset";
             "exp" := JInt (now + 3600) ]}) as Hclaims.
  { unfold issued_claims. apply map_eq. intros k.
    destruct (decide (k = "exp")) as [->|Hexp].
    - by rewrite lookup_insert_eq, lookup_insert_ne, lookup_insert_ne, lookup_singleton_eq.
    - rewrite lookup_insert_ne by done.
      destruct (decide (k = "sub")) as [->|Hsub]; [by rewrite !lookup_insert_eq|].
      rewrite !(lookup_insert_ne _ "sub") by done.
      destruct (decide (k = "type")) as [->|Hty];
        [by rewrite lookup_singleton_eq, lookup_insert_eq|].
      by rewrite lookup_singleton_ne, lookup_insert_ne, lookup_singleton_ne. }
  eexists. split; [reflexivity|]. split; [|split; [|split]].
  - unfold signed_claims. rewrite <- Hclaims. apply create_access_token_signed.
  - eexists. split; [reflexivity|].
    by rewrite lookup_insert_ne, lookup_insert_ne, lookup_singleton_eq.
  - intros t. rewrite <- Hclaims. case_bool_decide as Hle.
    + apply decode_token_issued; [apply app_claims_sub_type|exact Hle].
    + apply decode_token_expired. eexists _, (now + 3600).
      split; [reflexivity|]. split; [by rewrite lookup_insert_eq|lia].
  - intros Heq. apply (f_equal (lookup "reset_token")) in Heq.
    rewrite lookup_insert_ne, lookup_singleton_eq, lookup_singleton_ne in Heq by done.
    done.
Qed.

(** ** Resolving the Identity of a token *)



Lemma get_current_user_resolves (now : Z) (tok : token) (c : gmap string jvalue)
    (email : string) (s : Store) (user : User.t) :
  decode_token now tok = Some c →
  c !! "sub" = Some (JStr email) →
  get_user_by_email s email = Some user →
  get_current_user now tok s = (inr user, s).
Proof.
  intros Hd Hsub Hu. unfold get_current_user. rewrite Hd, Hsub. run. by rewrite Hu.
Qed.

Lemma get_current_user_inr (now : Z) (tok : token) (s s' : Store) (user : User.t) :
  get_current_user now tok s = (inr user, s') →
  s' = s ∧ ∃ c email, decode_token now tok = Some c ∧ c !! "sub" = Some (JStr email) ∧
                      get_user_by_email s email = Some user.
Proof.
  unfold get_current_user.
  destruct (decode_token now tok) as [c|] eqn:Hd; [|done].
  destruct (c !! "sub") as [[email|n]|] eqn:Hsub; [|done|done].
  run. destruct (get_user_by_email s email) as [u|] eqn:Hu; [|done].
  intros [= <- <-]. split; [done|]. by exists c, email.
Qed.

Lemma get_current_user_inl (now : Z) (tok : token) (s s' : Store) (e : HTTPException) :
  get_current_user now tok s = (inl e, s') → s' = s ∧ e = credentials_exception.
Proof.
  unfold get_current_user.
  destruct (decode_token now tok) as [c|]; [|by intros [= <- <-]].
  destruct (c !! "sub") as [[email|n]|]; [|by intros [= <- <-]..].
  run. destruct (get_user_by_email s email); [done|by intros [= <- <-]].
Qed.


(** ** The constraints of the tables *)

Lemma NoDup_fmap_eq {A B} (f : A → B) (l : list A) (x y : A) :
  NoDup (f <$> l) → x ∈ l → y ∈ l → f x = f y → x = y.
Proof.
  induction l as [|z l IH]; [by intros _ ?%elem_of_nil|].
  rewrite fmap_cons, NoDup_cons, !elem_of_cons.
  intros [Hz Hl] [->|Hx] [->|Hy] Hf; auto.
  - destruct Hz. rewrite Hf. by apply list_elem_of_fmap_2.
  - destruct Hz. rewrite <- Hf. by apply list_elem_of_fmap_2.
Qed.

Lemma next_id_fresh (ids : list Z) : next_id ids ∉ ids.
Proof.
  assert (∀ i rest j, j ∈ i :: rest → j ≤ foldr Z.max i rest) as Hmax.
  { intros i rest j. induction rest as [|k rest IH]; simpl.
    - intros ->%list_elem_of_singleton. lia.
    - rewrite !elem_of_cons. intros [->|[->|Hj]].
      + assert (i ≤ foldr Z.max i rest) by (apply IH; left). lia.
      + lia.
      + assert (j ≤ foldr Z.max i rest) by (apply IH; by right). lia. }
  destruct ids as [|i rest]; simpl; [apply not_elem_of_nil|].
  intros Hin%Hmax. lia.
Qed.

Lemma store_ok_empty : store_ok (mkStore [] [] ∅).
Proof. repeat split; apply NoDup_nil_2. Qed.

Lemma store_ok_register (now : Z) (salt : string) (user_data : UserCreate.t) (s : Store) :
  store_ok s → store_ok (snd (register now salt user_data s)).
Proof.
  intros Hok. destruct (decide (registered s (UserCreate.email user_data))) as [Hreg|Hnew].
  - apply get_user_by_email_registered in Hreg as [u Hu].
    by rewrite (register_existing now salt user_data s u).
  - destruct (Passlib.accepts (UserCreate.password user_data)) eqn:Hacc;
      [|by rewrite register_unhashable].
    rewrite register_new by done. destruct Hok as (Hid & Hem & Hph).
    unfold store_ok. cbn [snd users photos].
    repeat split; [| |done]; rewrite fmap_app; apply NoDup_app.
    + split; [done|]. split; [|apply NoDup_singleton].
      intros i Hi ->%list_elem_of_singleton. by apply next_id_fresh in Hi.
    + split; [done|]. split; [|apply NoDup_singleton].
      by intros e He ->%list_elem_of_singleton.
Qed.

Lemma store_ok_updated (user : User.t) (change : User.t → User.t) (s : Store) :
  (∀ r, User.id (change r) = User.id r) →
  (∀ r, User.email (change r) = User.email r) →
  store_ok s → store_ok (updated user change s).
Proof.
  intros Hid Hem (Hi & He & Hp). unfold updated. repeat split; simpl; [| |done].
  - rewrite <- list_fmap_compose.
    rewrite (list_fmap_ext _ User.id (users s)); [done|].
    intros _ r _. simpl. by case_bool_decide.
  - rewrite <- list_fmap_compose.
    rewrite (list_fmap_ext _ User.email (users s)); [done|].
    intros _ r _. simpl. by case_bool_decide.
Qed.

(** ** Photos *)



(** ** Concrete runs *)

Example register_alice :
  register 1000 "salt1" (UserCreate.mk "a@x.com" "pw123") store0 =
    (inr (UserRegisterResponse.mk 1 "a@x.com" false (Some alice_verify_token)),
     mkStore [alice] [] ∅).
Proof. reflexivity. Qed.

Example list_photos_bob :
  fst (list_photos 2000 bob_token 0 20 store2) =
    inr [PhotoItem.mk 2 "/uploads/2c3d.png" None 1200].
Proof. reflexivity. Qed.

Example delete_photo_own :
  delete_photo 2000 alice_token 1 store2 =
    (inr {[ "message" := RStr "Photo deleted successfully" ]},
     mkStore [alice; bob] [Photo.mk 2 2 "2c3d.png" None None 1200] {[ "2c3d.png" ]}).
Proof. vm_compute. reflexivity. Qed.

(** C1 at [store0]: an address sent with capitals in its domain registers
    at 1000, logs in at 2000 and is resolved at 5600, the last second of the
    token. *)
Lemma register_login_resolve_witness :
  ¬ registered store0 "Alice@x.com" ∧
  Passlib.accepts "pw123" = true ∧
  ∃ (r : UserRegisterResponse.t) (s' : Store) (tok : TokenOut.t) (user : User.t),
    register 1000 "salt1" (UserCreate.build "Alice@X.COM" "pw123") store0 = (inr r, s') ∧
    UserRegisterResponse.email r = "Alice@x.com" ∧
    UserRegisterResponse.is_verified r = false ∧
    login 2000 (OAuth2PasswordRequestForm.mk "Alice@x.com" "pw123") s' = (inr tok, s') ∧
    login_json 2000 (UserLogin.build "Alice@X.COM" "pw123") s' = (inr tok, s') ∧
    TokenOut.token_type tok = "bearer" ∧
    get_current_user 5600 (TokenOut.access_token tok) s' = (inr user, s') ∧
    User.email user = "Alice@x.com" ∧
    User.id user = UserRegisterResponse.id r ∧
    user ∈ users s'.
Proof.
  assert (¬ registered store0 "Alice@x.com") as Hnew by (intros H; inversion H).
  assert (Passlib.accepts "pw123" = true) as Hacc by reflexivity.
  assert (5600 ≤ 2000 + timedelta 0 ACCESS_TOKEN_EXPIRE_MINUTES) as Hle
    by (vm_compute; discriminate).
  split; [exact Hnew|]. split; [exact Hacc|].
  exact (register_login_resolve 1000 2000 5600 "salt1" "Alice@X.COM" "pw123" store0
           Hnew Hacc Hle).
Defined.

(** C8 at [store2]: a second registration of [alice]'s email. *)
Lemma register_already_exists_witness :
  registered store2 "a@x.com" ∧
  register 3000 "salt3" (UserCreate.mk "a@x.com" "other") store2 =
    (inl (mkHTTPException HTTP_400_BAD_REQUEST "Email already registered" []), store2).
Proof.
  assert (registered store2 "a@x.com") as Hreg by left.
  split; [exact Hreg|].
  exact (register_already_exists 3000 "salt3" (UserCreate.mk "a@x.com" "other") store2 Hreg).
Defined.


(** C3 at [store2]: the verification token of [alice], an hour after it
    was issued. *)
Lemma confirm_password_reset_refuses_verification_token_witness :
  has_purpose alice_verify_token "email_verification" ∧
  decode_token 4600 alice_verify_token =
    Some (issued_claims 1000
            {[ "sub" := JStr "a@x.com"; "type" := JStr "email_verification" ]}
            (Some (timedelta 24 0))) ∧
  confirm_password_reset 4600 "salt3" (PasswordResetConfirm.mk alice_verify_token "new")
    store2 =
    (inl (mkHTTPException HTTP_400_BAD_REQUEST "Invalid or expired reset token" []), store2).
Proof.
  assert (has_purpose alice_verify_token "email_verification") as Hp.
  { eexists. split; reflexivity. }
  split; [exact Hp|]. split; [reflexivity|].
  exact (confirm_password_reset_refuses_verification_token 4600 "salt3" alice_verify_token
           "new" store2 Hp).
Defined.

(** C6 at [store2]: [alice]'s access token one second after its expiry. *)
Lemma expired_token_refused_witness :
  expired 5601 alice_token ∧
  get_current_user 5601 alice_token store2 = (inl credentials_exception, store2) ∧
  verify_email 5601 alice_token store2 =
    (inl (mkHTTPException HTTP_400_BAD_REQUEST "Invalid or expired verification token" []),
     store2) ∧
  confirm_password_reset 5601 "salt3" (PasswordResetConfirm.mk alice_token "new") store2 =
    (inl (mkHTTPException HTTP_400_BAD_REQUEST "Invalid or expired reset token" []), store2).
Proof.
  assert (expired 5601 alice_token) as Hexp.
  { eexists _, 5600. split; [reflexivity|]. split; [reflexivity|]. vm_compute. reflexivity. }
  split; [exact Hexp|].
  exact (expired_token_refused 5601 "salt3" alice_token "new" store2 Hexp).
Defined.

(** C7 at [store2]: [alice] verifies twice with the token of her
    registration. *)
Lemma verify_email_idempotent_witness :
  ∃ (s' : Store) (user' : User.t),
    verify_email 1500 alice_verify_token store2 =
      (inr {[ "message" := RStr "Email verified successfully" ]}, s') ∧
    verify_email 1600 alice_verify_token s' =
      (inr {[ "message" := RStr "Email verified successfully" ]}, s') ∧
    get_user_by_email s' "a@x.com" = Some user' ∧
    User.is_verified user' = true ∧
    User.id user' = User.id alice.
Proof.
  refine (verify_email_idempotent 1500 1600 alice_verify_token
            (issued_claims 1000
               {[ "sub" := JStr "a@x.com"; "type" := JStr "email_verification" ]}
               (Some (timedelta 24 0)))
            "a@x.com" alice store2 _ _ _ _ _ _); try reflexivity.
  discriminate.
Defined.

(** C5 at [alice]'s access token, in the last second of its life. *)
Lemma decode_token_signed_witness :
  signed_claims alice_token (issued_claims 2000 {[ "sub" := JStr "a@x.com" ]} None) ∧
  decode_token 5600 alice_token =
    Some (issued_claims 2000 {[ "sub" := JStr "a@x.com" ]} None).
Proof.
  assert (signed_claims alice_token (issued_claims 2000 {[ "sub" := JStr "a@x.com" ]} None))
    as Hs by reflexivity.
  split; [exact Hs|].
  refine (proj1 (proj2 (decode_token_signed 5600 alice_token _ Hs)) _ _).
  - apply issued_claims_app, app_claims_sub.
  - right. exists 5600. split; [reflexivity|]. vm_compute. discriminate.
Defined.



(** C1, refuted as stated. A password with a NUL byte in it is refused by
    the hasher, outside any [try]: [register] answers with the 500 of an
    exception nobody handles and stores nothing.  And the address "A@X.COM"
    is stored as "A@x.com", which [login] does not find under the address as
    it was sent, while [login_json] does. *)
Lemma register_login_refuted :
  register 1000 "salt1" (UserCreate.build "a@x.com" nul_password) store0 =
    (inl unhandled_exception, store0) ∧
  register 1000 "salt1" (UserCreate.build "A@X.COM" "pw123") store0 =
    (inr (UserRegisterResponse.mk 1 "A@x.com" false (Some (verify_token_for 1000 "A@x.com"))),
     store_capitals) ∧
  login 2000 (OAuth2PasswordRequestForm.mk "A@X.COM" "pw123") store_capitals =
    (inl (mkHTTPException HTTP_400_BAD_REQUEST "Incorrect email or password" []),
     store_capitals) ∧
  login_json 2000 (UserLogin.build "A@X.COM" "pw123") store_capitals =
    (inr (TokenOut.mk (access_token_for 2000 "A@x.com") "bearer"), store_capitals).
Proof. repeat split; vm_compute; reflexivity. Qed.

(** C2, refuted as stated: for one and the same email, the response when
    an Identity has it is not the response when none has. *)
Lemma request_password_reset_distinguishes :
  registered store2 "a@x.com" ∧
  ¬ registered store0 "a@x.com" ∧
  fst (request_password_reset 2000 (PasswordResetRequest.mk "a@x.com") store2) ≠
  fst (request_password_reset 2000 (PasswordResetRequest.mk "a@x.com") store0).
Proof.
  split; [left|]. split; [intros H; inversion H|].
  intros Heq.
  apply (f_equal (λ r, match r with inr resp => resp !! "reset_token" | inl _ => None end))
    in Heq.
  vm_compute in Heq. discriminate.
Qed.

(** C5, refuted as stated: [alice]'s access token is signed with the
    process-wide key, and a second after its expiry it decodes to nothing,
    not to its claims. *)
Lemma decode_token_checks_expiry :
  signed_claims alice_token (issued_claims 2000 {[ "sub" := JStr "a@x.com" ]} None) ∧
  decode_token 5600 alice_token =
    Some (issued_claims 2000 {[ "sub" := JStr "a@x.com" ]} None) ∧
  decode_token 5601 alice_token = None ∧
  decode_token 5601 alice_token ≠ Some (issued_claims 2000 {[ "sub" := JStr "a@x.com" ]} None).
Proof.
  split; [reflexivity|]. split; [reflexivity|]. split; [reflexivity|].
  assert (decode_token 5601 alice_token = None) as -> by reflexivity. discriminate.
Qed.

(** * Further properties of the routes *)

(** ** File names *)

Lemma rfind_from_spec (c : ascii) (p : list ascii) (i last : Z) :
  (OsPath.rfind_from c p i last = last ∧ c ∉ p) ∨
  (i ≤ OsPath.rfind_from c p i last < i + Z.of_nat (length p) ∧
   p !! Z.to_nat (OsPath.rfind_from c p i last - i) = Some c ∧
   ∀ j, (Z.to_nat (OsPath.rfind_from c p i last - i) < j)%nat → p !! j ≠ Some c).
Proof.
  revert i last. induction p as [|x p IH]; intros i last; simpl.
  { left. split; [done|apply not_elem_of_nil]. }
  destruct (IH (i + 1) (if bool_decide (x = c) then i else last)) as [[Hr Hno]|(Hr & Hat & Hafter)].
  - rewrite Hr. case_bool_decide as Hx.
    + right. subst x. replace (i - i) with 0 by lia. simpl.
      split; [lia|]. split; [done|]. intros [|j] Hj; [lia|]. simpl.
      intros Hin%list_elem_of_lookup_2. done.
    + left. split; [done|]. by apply not_elem_of_cons.
  - right. set (r := OsPath.rfind_from c p (i + 1) _) in *.
    replace (Z.to_nat (r - i)) with (S (Z.to_nat (r - (i + 1)))) by lia.
    split; [lia|]. split; [done|]. intros [|j] Hj; [lia|]. simpl. apply Hafter. lia.
Qed.

Lemma rfind_after (c : ascii) (p : list ascii) (j : nat) :
  OsPath.rfind c p < Z.of_nat j → p !! j ≠ Some c.
Proof.
  unfold OsPath.rfind. intros Hj.
  destruct (rfind_from_spec c p 0 (-1)) as [[_ Hno]|(Hr & _ & Hafter)].
  - intros Hin%list_elem_of_lookup_2. done.
  - apply Hafter. lia.
Qed.

Lemma rfind_at (c : ascii) (p : list ascii) :
  0 ≤ OsPath.rfind c p → p !! Z.to_nat (OsPath.rfind c p) = Some c.
Proof.
  unfold OsPath.rfind. intros Hr.
  destruct (rfind_from_spec c p 0 (-1)) as [[Hm _]|(_ & Hat & _)]; [lia|].
  by rewrite Z.sub_0_r in Hat.
Qed.

Lemma list_ascii_of_string_app (a b : string) :
  String.list_ascii_of_string (a +:+ b) =
  String.list_ascii_of_string a ++ String.list_ascii_of_string b.
Proof. induction a as [|x a IH]; simpl; [done|]. by rewrite IH. Qed.

Lemma append_empty_r (p : string) : p +:+ "" = p.
Proof.
  induction p as [|x p IH]; [done|].
  change (String x (p +:+ "") = String x p). by rewrite IH.
Qed.

Lemma string_of_list_ascii_app (l k : list ascii) :
  String.string_of_list_ascii l +:+ String.string_of_list_ascii k =
  String.string_of_list_ascii (l ++ k).
Proof.
  induction l as [|x l IH]; [done|].
  change (String x (String.string_of_list_ascii l +:+ String.string_of_list_ascii k) =
          String x (String.string_of_list_ascii (l ++ k))).
  by rewrite IH.
Qed.

(** What [splitext] splits off: nothing, or a suffix of the name that
    begins with a dot and has no separator in it; and the two parts make up
    the name. *)
Lemma splitext_ext (p : string) :
  fst (OsPath.splitext p) +:+ snd (OsPath.splitext p) = p ∧
  (snd (OsPath.splitext p) = "" ∨
   (∃ rest, snd (OsPath.splitext p) = String "."%char rest) ∧
   "/"%char ∉ String.list_ascii_of_string (snd (OsPath.splitext p))).
Proof.
  unfold OsPath.splitext.
  set (cs := String.list_ascii_of_string p).
  set (sepIndex := OsPath.rfind "/"%char cs).
  set (dotIndex := OsPath.rfind "."%char cs).
  destruct (_ && _) eqn:Hc; simpl.
  2:{ split; [apply append_empty_r|by left]. }
  apply andb_true_iff in Hc as [Hlt%Z.ltb_lt _].
  assert (-1 ≤ sepIndex) as Hsep.
  { unfold sepIndex, OsPath.rfind.
    destruct (rfind_from_spec "/"%char cs 0 (-1)) as [[-> _]|(? & _)]; lia. }
  assert (0 ≤ dotIndex) as Hdot by lia.
  split.
  - rewrite string_of_list_ascii_app, take_drop.
    apply String.string_of_list_ascii_of_string.
  - right. split.
    + pose proof (rfind_at "."%char cs Hdot) as Hat. fold dotIndex in Hat.
      destruct (drop (Z.to_nat dotIndex) cs) as [|x rest] eqn:Hd.
      { apply (f_equal (λ l, l !! 0%nat)) in Hd. rewrite lookup_drop, Nat.add_0_r in Hd.
        simpl in Hd. congruence. }
      apply (f_equal (λ l, l !! 0%nat)) in Hd. rewrite lookup_drop, Nat.add_0_r in Hd.
      simpl in Hd. rewrite Hat in Hd. injection Hd as <-.
      exists (String.string_of_list_ascii rest). done.
    + rewrite String.list_ascii_of_string_of_list_ascii.
      intros (j & Hj)%list_elem_of_lookup_1. rewrite lookup_drop in Hj.
      revert Hj. apply rfind_after. fold sepIndex. lia.
Qed.

(** ** The two confirming routes, case by case *)

Lemma verify_email_ok (now : Z) (tok : token) (c : gmap string jvalue) (email : string)
    (user : User.t) (s : Store) :
  decode_token now tok = Some c →
  c !! "type" = Some (JStr "email_verification") →
  c !! "sub" = Some (JStr email) →
  email ≠ "" →
  get_user_by_email s email = Some user →
  verify_email now tok s =
    (inr {[ "message" := RStr "Email verified successfully" ]},
     updated user (User.set_is_verified true) s).
Proof.
  intros Hd Hty Hsub Hne Hu.
  assert (c ≠ ∅) as Hc by (intros ->; by rewrite lookup_empty in Hty).
  unfold verify_email. rewrite Hd. simpl.
  rewrite (bool_decide_eq_false_2 (c = ∅)) by done. rewrite Hty, Hsub. simpl.
  rewrite (bool_decide_eq_false_2 (email = "")) by done. simpl. run.
  unfold get_user_by_email in Hu. rewrite Hu. unfold update_user. run. done.
Qed.

Lemma confirm_password_reset_ok (now : Z) (salt : string) (tok : token)
    (new_password : string) (c : gmap string jvalue) (email : string) (user : User.t)
    (s : Store) :
  decode_token now tok = Some c →
  c !! "type" = Some (JStr "password_reset") →
  c !! "sub" = Some (JStr email) →
  email ≠ "" →
  get_user_by_email s email = Some user →
  confirm_password_reset now salt (PasswordResetConfirm.mk tok new_password) s =
    if Passlib.accepts new_password then
      (inr {[ "message" := RStr "Password reset successfully" ]},
       updated user (User.set_hashed_password (Passlib.Bcrypt salt new_password)) s)
    else (inl unhandled_exception, s).
Proof.
  intros Hd Hty Hsub Hne Hu.
  assert (c ≠ ∅) as Hc by (intros ->; by rewrite lookup_empty in Hty).
  unfold confirm_password_reset.
  cbn [PasswordResetConfirm.token PasswordResetConfirm.new_password]. rewrite Hd. simpl.
  rewrite (bool_decide_eq_false_2 (c = ∅)) by done. rewrite Hty, Hsub. simpl.
  rewrite (bool_decide_eq_false_2 (email = "")) by done. simpl. run.
  unfold get_user_by_email in Hu. rewrite Hu.
  unfold get_password_hash, Passlib.hash.
  destruct (Passlib.accepts new_password); [|done]. unfold update_user. run. done.
Qed.

(** A run of [verify_email] either raises and leaves the store, or sets the
    flag of the Identity the subject names. *)
Lemma verify_email_cases (now : Z) (tok : token) (s : Store) :
  (∃ e, verify_email now tok s = (inl e, s)) ∨
  (∃ c email user,
     decode_token now tok = Some c ∧ c !! "type" = Some (JStr "email_verification") ∧
     c !! "sub" = Some (JStr email) ∧ email ≠ "" ∧ get_user_by_email s email = Some user ∧
     verify_email now tok s =
       (inr {[ "message" := RStr "Email verified successfully" ]},
        updated user (User.set_is_verified true) s)).
Proof.
  destruct (decode_token now tok) as [c|] eqn:Hd.
  2:{ left. eexists. unfold verify_email. rewrite Hd. reflexivity. }
  destruct (decide (c !! "type" = Some (JStr "email_verification"))) as [Hty|Hty].
  2:{ left. eexists. unfold verify_email. rewrite Hd. simpl.
      rewrite (bool_decide_eq_true_2 _ Hty), orb_true_r. reflexivity. }
  assert (c ≠ ∅) as Hc by (intros ->; by rewrite lookup_empty in Hty).
  assert (negb (truthy_payload (Some c)) ||
          bool_decide (Some c ≫= (.!! "type") ≠ Some (JStr "email_verification")) = false)
    as Hgate.
  { simpl. rewrite (bool_decide_eq_false_2 (c = ∅)) by done. rewrite Hty. done. }
  destruct (c !! "sub") as [[email|n]|] eqn:Hsub.
  - destruct (decide (email = "")) as [->|Hne].
    { left. eexists. unfold verify_email. rewrite Hd. cbn zeta. rewrite Hgate. simpl. rewrite Hsub.
      reflexivity. }
    destruct (get_user_by_email s email) as [user|] eqn:Hu.
    + right. exists c, email, user. repeat (split; [done|]).
      by apply (verify_email_ok now tok c email user s).
    + left. eexists. unfold verify_email. rewrite Hd. cbn zeta. rewrite Hgate. simpl. rewrite Hsub.
      simpl. rewrite (bool_decide_eq_false_2 (email = "")) by done. simpl. run.
      unfold get_user_by_email in Hu. rewrite Hu. reflexivity.
  - left. unfold verify_email. rewrite Hd. cbn zeta. rewrite Hgate. simpl. rewrite Hsub.
    simpl. destruct (n =? 0); simpl; eexists; run; reflexivity.
  - left. eexists. unfold verify_email. rewrite Hd. cbn zeta. rewrite Hgate. simpl. rewrite Hsub.
    reflexivity.
Qed.

Lemma confirm_password_reset_cases (now : Z) (salt : string)
    (reset_data : PasswordResetConfirm.t) (s : Store) :
  (∃ e, confirm_password_reset now salt reset_data s = (inl e, s)) ∨
  (∃ c email user,
     decode_token now (PasswordResetConfirm.token reset_data) = Some c ∧
     c !! "type" = Some (JStr "password_reset") ∧
     c !! "sub" = Some (JStr email) ∧ email ≠ "" ∧ get_user_by_email s email = Some user ∧
     Passlib.accepts (PasswordResetConfirm.new_password reset_data) = true ∧
     confirm_password_reset now salt reset_data s =
       (inr {[ "message" := RStr "Password reset successfully" ]},
        updated user
          (User.set_hashed_password
             (Passlib.Bcrypt salt (PasswordResetConfirm.new_password reset_data))) s)).
Proof.
  destruct reset_data as [tok new_password]. cbn [PasswordResetConfirm.token
    PasswordResetConfirm.new_password].
  destruct (decode_token now tok) as [c|] eqn:Hd.
  2:{ left. eexists. unfold confirm_password_reset. cbn [PasswordResetConfirm.token].
      rewrite Hd. reflexivity. }
  destruct (decide (c !! "type" = Some (JStr "password_reset"))) as [Hty|Hty].
  2:{ left. eexists. unfold confirm_password_reset. cbn [PasswordResetConfirm.token].
      rewrite Hd. simpl. rewrite (bool_decide_eq_true_2 _ Hty), orb_true_r. reflexivity. }
  assert (c ≠ ∅) as Hc by (intros ->; by rewrite lookup_empty in Hty).
  assert (negb (truthy_payload (Some c)) ||
          bool_decide (Some c ≫= (.!! "type") ≠ Some (JStr "password_reset")) = false)
    as Hgate.
  { simpl. rewrite (bool_decide_eq_false_2 (c = ∅)) by done. rewrite Hty. done. }
  destruct (c !! "sub") as [[email|n]|] eqn:Hsub.
  - destruct (decide (email = "")) as [->|Hne].
    { left. eexists. unfold confirm_password_reset. cbn [PasswordResetConfirm.token].
      rewrite Hd. cbn zeta. rewrite Hgate. simpl. rewrite Hsub. reflexivity. }
    destruct (get_user_by_email s email) as [user|] eqn:Hu.
    + pose proof (confirm_password_reset_ok now salt tok new_password c email user s
                    Hd Hty Hsub Hne Hu) as Hrun.
      destruct (Passlib.accepts new_password) eqn:Hacc.
      * right. exists c, email, user. by repeat (split; [done|]).
      * left. by eexists.
    + left. eexists. unfold confirm_password_reset. cbn [PasswordResetConfirm.token].
      rewrite Hd. cbn zeta. rewrite Hgate. simpl. rewrite Hsub.
      simpl. rewrite (bool_decide_eq_false_2 (email = "")) by done. simpl. run.
      unfold get_user_by_email in Hu. rewrite Hu. reflexivity.
  - left. unfold confirm_password_reset. cbn [PasswordResetConfirm.token].
    rewrite Hd. cbn zeta. rewrite Hgate. simpl. rewrite Hsub.
    simpl. destruct (n =? 0); simpl; eexists; run; reflexivity.
  - left. eexists. unfold confirm_password_reset. cbn [PasswordResetConfirm.token].
    rewrite Hd. cbn zeta. rewrite Hgate. simpl. rewrite Hsub. reflexivity.
Qed.

(** ** Logging in *)

(** X1. With the email of an Identity and the password its hash verifies,
    [login] and [login_json] of a deactivated account raise "Account is
    deactivated" and leave the store; the answer is not the one for wrong
    credentials, so it tells that the password was right. *)
Theorem login_deactivated (now : Z) (s : Store) (user : User.t) (email password : string) :
  get_user_by_email s email = Some user →
  verify_password password (User.hashed_password user) = Some true →
  User.is_active user = false →
  login now (OAuth2PasswordRequestForm.mk email password) s =
    (inl (mkHTTPException HTTP_400_BAD_REQUEST "Account is deactivated" []), s) ∧
  login_json now (UserLogin.mk email password) s =
    (inl (mkHTTPException HTTP_400_BAD_REQUEST "Account is deactivated" []), s) ∧
  mkHTTPException HTTP_400_BAD_REQUEST "Account is deactivated" [] ≠
    mkHTTPException HTTP_400_BAD_REQUEST "Incorrect email or password" [].
Proof.
  intros Hu Hpw Hact. unfold login, login_json. run. simpl.
  rewrite Hu, Hpw, Hact. done.
Qed.


(** ** Tokens, issued and decoded *)

(** X3. A token [create_access_token] makes of claims of the kind the
    routes use decodes to those claims, with the expiry put in (over an
    [exp] of the data, if any), as long as the clock is not past the
    expiry, and to nothing afterwards. *)
Theorem create_access_token_round_trip (now t0 : Z) (data : gmap string jvalue)
    (expires_delta : option Z) :
  app_claims data →
  decode_token now (create_access_token t0 data expires_delta) =
    if bool_decide (now ≤ t0 + expires_or_default expires_delta)
    then Some (<["exp" := JInt (t0 + expires_or_default expires_delta)]> data)
    else None.
Proof.
  intros Happ. case_bool_decide as Hle.
  - by apply decode_token_issued.
  - apply decode_token_expired. eexists _, (t0 + expires_or_default expires_delta).
    split; [reflexivity|]. split; [by rewrite lookup_insert_eq|lia].
Qed.

(** X4. A zero [expires_delta] is falsy and gets the default: the token
    lives for the sixty minutes of [ACCESS_TOKEN_EXPIRE_MINUTES], not for
    no time.  A negative one gives a token that never decodes from the
    moment it is issued. *)
Theorem create_access_token_zero_delta (now t0 : Z) (data : gmap string jvalue) :
  app_claims data →
  t0 ≤ now →
  (now ≤ t0 + 3600 →
   decode_token now (create_access_token t0 data (Some 0)) =
     Some (<["exp" := JInt (t0 + 3600)]> data)) ∧
  (∀ d, d < 0 → decode_token now (create_access_token t0 data (Some d)) = None).
Proof.
  intros Happ Hnow. split.
  - intros Hle. rewrite decode_token_issued; [done|done|]. simpl. exact Hle.
  - intros d Hd. apply decode_token_expired. eexists _, (t0 + d).
    split; [reflexivity|]. split; [|lia].
    rewrite lookup_insert_eq. simpl. destruct (Z.eqb_spec d 0); [lia|done].
Qed.

Lemma protected_routes_unauthorized (now : Z) (tok : token) (s : Store) (e : HTTPException) :
  get_current_user now tok s = (inl e, s) →
  get_current_user_info now tok s = (inl e, s) ∧
  (∀ uuid_hex outcome file caption,
     upload_photo now tok uuid_hex outcome file caption s = (inl e, s)) ∧
  (∀ skip limit, list_photos now tok skip limit s = (inl e, s)) ∧
  (∀ photo_id, delete_photo now tok photo_id s = (inl e, s)).
Proof.
  intros Hg. unfold get_current_user_info, upload_photo, list_photos, delete_photo, bind.
  by rewrite Hg.
Qed.

(** X5. A token whose signature does not verify against the process-wide
    key with HS256 (another key, another algorithm, no JWS at all) is
    refused everywhere: the 401 by the gate and by each protected route,
    the 400 by the two confirming routes; and the store is left as it was. *)
Theorem unverified_token_refused (now : Z) (salt : string) (tok : token)
    (new_password : string) (s : Store) :
  Jose.verify tok SECRET_KEY [ALGORITHM] = None →
  get_current_user now tok s = (inl credentials_exception, s) ∧
  get_current_user_info now tok s = (inl credentials_exception, s) ∧
  (∀ uuid_hex outcome file caption,
     upload_photo now tok uuid_hex outcome file caption s = (inl credentials_exception, s)) ∧
  (∀ skip limit, list_photos now tok skip limit s = (inl credentials_exception, s)) ∧
  (∀ photo_id, delete_photo now tok photo_id s = (inl credentials_exception, s)) ∧
  verify_email now tok s =
    (inl (mkHTTPException HTTP_400_BAD_REQUEST "Invalid or expired verification token" []), s) ∧
  confirm_password_reset now salt (PasswordResetConfirm.mk tok new_password) s =
    (inl (mkHTTPException HTTP_400_BAD_REQUEST "Invalid or expired reset token" []), s).
Proof.
  intros Hv.
  assert (decode_token now tok = None) as Hd by (by rewrite decode_token_verify, Hv).
  assert (get_current_user now tok s = (inl credentials_exception, s)) as Hg
    by (unfold get_current_user; by rewrite Hd).
  split; [exact Hg|].
  destruct (protected_routes_unauthorized now tok s _ Hg) as (H1 & H2 & H3 & H4).
  repeat (split; [done|]).
  unfold verify_email, confirm_password_reset. simpl. by rewrite Hd.
Qed.

(** X6. [verify_email] refuses every token that does not carry the purpose
    tag [email_verification], an access token (which has no tag) and a
    reset token among them, and leaves the store as it was. *)
Theorem verify_email_requires_purpose (now : Z) (tok : token) (s : Store) :
  ¬ has_purpose tok "email_verification" →
  verify_email now tok s =
    (inl (mkHTTPException HTTP_400_BAD_REQUEST "Invalid or expired verification token" []), s).
Proof.
  intros Hno. unfold verify_email.
  destruct (decode_token now tok) as [c|] eqn:Hd; simpl; [|done].
  apply decode_token_claims in Hd.
  rewrite (bool_decide_eq_true_2 (c !! "type" ≠ Some (JStr "email_verification"))).
  - by rewrite orb_true_r.
  - intros Hty. apply Hno. by exists c.
Qed.

(** X7. [confirm_password_reset] refuses every token that does not carry
    the purpose tag [password_reset], an access token among them, and
    changes no password. *)
Theorem confirm_password_reset_requires_purpose (now : Z) (salt : string) (tok : token)
    (new_password : string) (s : Store) :
  ¬ has_purpose tok "password_reset" →
  confirm_password_reset now salt (PasswordResetConfirm.mk tok new_password) s =
    (inl (mkHTTPException HTTP_400_BAD_REQUEST "Invalid or expired reset token" []), s).
Proof.
  intros Hno. unfold confirm_password_reset. cbn [PasswordResetConfirm.token].
  destruct (decode_token now tok) as [c|] eqn:Hd; simpl; [|done].
  apply decode_token_claims in Hd.
  rewrite (bool_decide_eq_true_2 (c !! "type" ≠ Some (JStr "password_reset"))).
  - by rewrite orb_true_r.
  - intros Hty. apply Hno. by exists c.
Qed.

(** ** The subject of a confirming token *)

(** X8. A token that decodes and carries the purpose tag of the route, but
    has no subject or an empty one, gets "Invalid token" (400) from
    [verify_email] and from [confirm_password_reset]; with the email of no
    Identity as subject it gets "User not found" (404).  The store is left
    as it was each time. *)
Theorem confirming_routes_subject_errors (now : Z) (salt : string) (tok : token)
    (new_password : string) (c : gmap string jvalue) (s : Store) :
  decode_token now tok = Some c →
  (c !! "sub" = None ∨ c !! "sub" = Some (JStr "") ∨
   ∃ email, c !! "sub" = Some (JStr email) ∧ ¬ registered s email) →
  let e :=
    if bool_decide (c !! "sub" = None ∨ c !! "sub" = Some (JStr ""))
    then mkHTTPException HTTP_400_BAD_REQUEST "Invalid token" []
    else mkHTTPException HTTP_404_NOT_FOUND "User not found" [] in
  (c !! "type" = Some (JStr "email_verification") → verify_email now tok s = (inl e, s)) ∧
  (c !! "type" = Some (JStr "password_reset") →
   confirm_password_reset now salt (PasswordResetConfirm.mk tok new_password) s = (inl e, s)).
Proof.
  intros Hd Hsub e.
  assert (∀ p, c !! "type" = Some (JStr p) →
            negb (truthy_payload (Some c)) ||
            bool_decide (Some c ≫= (.!! "type") ≠ Some (JStr p)) = false) as Hgate.
  { intros p Hty. cbn [truthy_payload]. change (Some c ≫= (.!! "type")) with (c !! "type").
    rewrite (bool_decide_eq_false_2 (c = ∅)) by (intros ->; by rewrite lookup_empty in Hty).
    rewrite Hty.
    rewrite (bool_decide_eq_false_2 (Some (JStr p) ≠ Some (JStr p))) by (intros H; by apply H).
    done. }
  assert (∀ (A : Type) (k : Store → Handler A) (e400 e404 : HTTPException)
            (ok : User.t → Handler A),
            (if negb (truthy (c !! "sub")) then raise e400
             else let* session := get_session in
                  match first_user_where_email session (c !! "sub") with
                  | None => raise e404
                  | Some user => ok user
                  end) s =
            (inl (if bool_decide (c !! "sub" = None ∨ c !! "sub" = Some (JStr ""))
                  then e400 else e404), s)) as Hrest.
  { intros A _ e400 e404 ok.
    destruct Hsub as [Hs|[Hs|(email & Hs & Hno)]].
    - rewrite (bool_decide_eq_true_2 (c !! "sub" = None ∨ _)) by (by left).
      by rewrite Hs.
    - rewrite (bool_decide_eq_true_2 (c !! "sub" = None ∨ _)) by (by right).
      by rewrite Hs.
    - destruct (decide (email = "")) as [->|Hne].
      { rewrite (bool_decide_eq_true_2 (c !! "sub" = None ∨ _)) by (by right).
        by rewrite Hs. }
      rewrite (bool_decide_eq_false_2 (c !! "sub" = None ∨ _))
        by (rewrite Hs; intros [?|[= ?]]; done).
      rewrite Hs. cbn [truthy]. rewrite (bool_decide_eq_false_2 (email = "")) by done.
      cbn [negb]. run. cbn [first_user_where_email].
      apply get_user_by_email_None in Hno. unfold get_user_by_email in Hno.
      by rewrite Hno. }
  split; intros Hty.
  - unfold verify_email. rewrite Hd. cbn zeta. rewrite (Hgate _ Hty).
    change (Some c ≫= (.!! "sub")) with (c !! "sub").
    exact (Hrest _ (λ _, ret ∅) _ _ _).
  - unfold confirm_password_reset. cbn [PasswordResetConfirm.token
      PasswordResetConfirm.new_password]. rewrite Hd. cbn zeta. rewrite (Hgate _ Hty).
    change (Some c ≫= (.!! "sub")) with (c !! "sub").
    exact (Hrest _ (λ _, ret ∅) _ _ _).
Qed.

(** ** Flows *)

(** X9. After [register] of a new, non-empty email with a password the
    hasher accepts, [verify_email] with the token of the response succeeds
    at any time up to 24 hours later; the Identity is then verified, and
    [get_current_user_info] with an access token for it shows the account
    verified and active. *)
Theorem register_then_verify (t0 t1 t2 t3 : Z) (salt email password : string) (s : Store) :
  ¬ registered s email →
  email ≠ "" →
  Passlib.accepts password = true →
  t1 ≤ t0 + timedelta 24 0 →
  t3 ≤ t2 + timedelta 0 ACCESS_TOKEN_EXPIRE_MINUTES →
  ∃ (r : UserRegisterResponse.t) (s1 s2 : Store),
    register t0 salt (UserCreate.mk email password) s = (inr r, s1) ∧
    UserRegisterResponse.verify_token r = Some (verify_token_for t0 email) ∧
    verify_email t1 (verify_token_for t0 email) s1 =
      (inr {[ "message" := RStr "Email verified successfully" ]}, s2) ∧
    get_current_user_info t3 (access_token_for t2 email) s2 =
      (inr (UserRead.mk (UserRegisterResponse.id r) email true true t0), s2).
Proof.
  intros Hnew Hne Hacc H1 H3.
  pose proof (register_new t0 salt (UserCreate.mk email password) s Hnew Hacc) as Hreg.
  cbn zeta in Hreg. cbn [UserCreate.email UserCreate.password User.email User.id] in Hreg.
  set (user := User.mk (next_id (User.id <$> users s)) email
                 (Passlib.Bcrypt salt password) true false t0) in *.
  set (s1 := mkStore (users s ++ [user]) (photos s) (uploads s)) in *.
  assert (get_user_by_email s1 email = Some user) as Hget.
  { destruct s as [us ps fs]. apply (get_user_by_email_app_new us ps fs user). exact Hnew. }
  eexists _, s1, (updated user (User.set_is_verified true) s1).
  split; [exact Hreg|]. split; [reflexivity|]. split.
  - eapply verify_email_ok; [| | |exact Hne|exact Hget].
    + apply decode_token_issued; [apply app_claims_sub_type|exact H1].
    + unfold issued_claims. by rewrite lookup_insert_ne, lookup_insert_ne, lookup_singleton_eq.
    + unfold issued_claims. by rewrite lookup_insert_ne, lookup_insert_eq.
  - pose proof (get_user_by_email_updated user (User.set_is_verified true) s1 email
                  (λ _, eq_refl) Hget) as Hget'.
    unfold get_current_user_info, bind.
    rewrite (get_current_user_resolves t3 (access_token_for t2 email)
               (issued_claims t2 {[ "sub" := JStr email ]} None) email
               (updated user (User.set_is_verified true) s1)
               (User.set_is_verified true user)); [done| | |exact Hget'].
    + apply decode_token_issued; [apply app_claims_sub|exact H3].
    + unfold issued_claims. by rewrite lookup_insert_ne, lookup_singleton_eq.
Qed.

(** X10. For the non-empty email of an Identity and a new password the
    hasher accepts, [request_password_reset] hands out a token with which
    [confirm_password_reset] succeeds at any time up to an hour later;
    afterwards the hash of that Identity is the one of the new password.
    An active account then logs in with the new password, and with every
    accepted password that has the same first 72 bytes; an accepted
    password that differs from it in those bytes is refused. *)
Theorem password_reset_round_trip (t0 t1 t2 : Z) (salt email new_password : string)
    (user : User.t) (s : Store) :
  get_user_by_email s email = Some user →
  email ≠ "" →
  Passlib.accepts new_password = true →
  t1 ≤ t0 + timedelta 1 0 →
  request_password_reset t0 (PasswordResetRequest.mk email) s =
    (inr {[ "message" := RStr "Password reset token generated";
            "reset_token" := RToken (reset_token_for t0 email) ]}, s) ∧
  ∃ s',
    confirm_password_reset t1 salt
      (PasswordResetConfirm.mk (reset_token_for t0 email) new_password) s =
      (inr {[ "message" := RStr "Password reset successfully" ]}, s') ∧
    get_user_by_email s' email =
      Some (User.set_hashed_password (Passlib.Bcrypt salt new_password) user) ∧
    (∀ password,
       Passlib.accepts password = true →
       login t2 (OAuth2PasswordRequestForm.mk email password) s' =
         if bool_decide (Passlib.truncate password = Passlib.truncate new_password)
         then
           if User.is_active user
           then (inr (TokenOut.mk (access_token_for t2 email) "bearer"), s')
           else (inl (mkHTTPException HTTP_400_BAD_REQUEST "Account is deactivated" []), s')
         else (inl (mkHTTPException HTTP_400_BAD_REQUEST "Incorrect email or password" []),
               s')).
Proof.
  intros Hu Hne Hacc H1.
  apply get_user_by_email_Some in Hu as Hin. destruct Hin as [_ Hem].
  split.
  { unfold request_password_reset. run. cbn [PasswordResetRequest.email].
    rewrite Hu. unfold reset_token_for. by rewrite Hem. }
  pose proof (get_user_by_email_updated user
                (User.set_hashed_password (Passlib.Bcrypt salt new_password)) s email
                (λ _, eq_refl) Hu) as Hu'.
  eexists. split; [|split; [exact Hu'|]].
  - rewrite (confirm_password_reset_ok t1 salt _ new_password
               (issued_claims t0 {[ "sub" := JStr email; "type" := JStr "password_reset" ]}
                  (Some (timedelta 1 0))) email user s);
      [by rewrite Hacc| | | |exact Hne|exact Hu].
    + apply decode_token_issued; [apply app_claims_sub_type|exact H1].
    + unfold issued_claims. by rewrite lookup_insert_ne, lookup_insert_ne, lookup_singleton_eq.
    + unfold issued_claims. by rewrite lookup_insert_ne, lookup_insert_eq.
  - intros password Hpw. unfold login. run.
    cbn [OAuth2PasswordRequestForm.username OAuth2PasswordRequestForm.password].
    rewrite Hu'. cbn [User.set_hashed_password User.hashed_password User.is_active User.email].
    rewrite (verify_password_accepted _ _ _ Hpw).
    destruct (bool_decide (Passlib.truncate password = Passlib.truncate new_password));
      cbn [negb]; [|done].
    destruct (User.is_active user); cbn [negb]; [|done]. by rewrite Hem.
Qed.

(** X11. A reset token is not used up: within its hour it changes the
    password a second time, to any password the hasher accepts, and the
    hash left is the one of the second password. *)
Theorem reset_token_replay (t0 t1 t2 : Z) (salt1 salt2 email password1 password2 : string)
    (user : User.t) (s : Store) :
  get_user_by_email s email = Some user →
  email ≠ "" →
  Passlib.accepts password1 = true →
  Passlib.accepts password2 = true →
  t1 ≤ t0 + timedelta 1 0 →
  t2 ≤ t0 + timedelta 1 0 →
  ∃ s1 s2,
    confirm_password_reset t1 salt1
      (PasswordResetConfirm.mk (reset_token_for t0 email) password1) s =
      (inr {[ "message" := RStr "Password reset successfully" ]}, s1) ∧
    confirm_password_reset t2 salt2
      (PasswordResetConfirm.mk (reset_token_for t0 email) password2) s1 =
      (inr {[ "message" := RStr "Password reset successfully" ]}, s2) ∧
    get_user_by_email s2 email =
      Some (User.set_hashed_password (Passlib.Bcrypt salt2 password2) user).
Proof.
  intros Hu Hne Hacc1 Hacc2 H1 H2.
  assert (∀ t, t ≤ t0 + timedelta 1 0 →
            decode_token t (reset_token_for t0 email) =
              Some (issued_claims t0 {[ "sub" := JStr email; "type" := JStr "password_reset" ]}
                      (Some (timedelta 1 0)))) as Hdec.
  { intros t Ht. apply decode_token_issued; [apply app_claims_sub_type|exact Ht]. }
  assert (issued_claims t0 {[ "sub" := JStr email; "type" := JStr "password_reset" ]}
            (Some (timedelta 1 0)) !! "type" = Some (JStr "password_reset")) as Hty.
  { unfold issued_claims. by rewrite lookup_insert_ne, lookup_insert_ne, lookup_singleton_eq. }
  assert (issued_claims t0 {[ "sub" := JStr email; "type" := JStr "password_reset" ]}
            (Some (timedelta 1 0)) !! "sub" = Some (JStr email)) as Hsub.
  { unfold issued_claims. by rewrite lookup_insert_ne, lookup_insert_eq. }
  pose proof (get_user_by_email_updated user
                (User.set_hashed_password (Passlib.Bcrypt salt1 password1)) s email
                (λ _, eq_refl) Hu) as Hu1.
  pose proof (get_user_by_email_updated _
                (User.set_hashed_password (Passlib.Bcrypt salt2 password2)) _ email
                (λ _, eq_refl) Hu1) as Hu2.
  eexists _, _. split; [|split; [|exact Hu2]].
  - rewrite (confirm_password_reset_ok t1 salt1 _ password1 _ email user s
               (Hdec t1 H1) Hty Hsub Hne Hu). by rewrite Hacc1.
  - rewrite (confirm_password_reset_ok t2 salt2 _ password2 _ email _ _
               (Hdec t2 H2) Hty Hsub Hne Hu1). by rewrite Hacc2.
Qed.

(** X12. An email can be registered once: after [register] of a new email
    with a password the hasher accepts, a second [register] of it, with
    whatever password, raises "Email already registered" and leaves the
    store of the first. *)
Theorem register_twice (t0 t1 : Z) (salt salt' email password password' : string)
    (s : Store) :
  ¬ registered s email →
  Passlib.accepts password = true →
  ∃ r s1,
    register t0 salt (UserCreate.mk email password) s = (inr r, s1) ∧
    length (users s1) = S (length (users s)) ∧
    register t1 salt' (UserCreate.mk email password') s1 =
      (inl (mkHTTPException HTTP_400_BAD_REQUEST "Email already registered" []), s1).
Proof.
  intros Hnew Hacc.
  pose proof (register_new t0 salt (UserCreate.mk email password) s Hnew Hacc) as Hreg.
  cbn zeta in Hreg. cbn [UserCreate.email UserCreate.password User.email User.id] in Hreg.
  set (user := User.mk (next_id (User.id <$> users s)) email
                 (Passlib.Bcrypt salt password) true false t0) in *.
  eexists _, _. split; [exact Hreg|]. split.
  - cbn [users]. rewrite length_app. simpl. lia.
  - apply (register_existing t1 salt' (UserCreate.mk email password') _ user).
    destruct s as [us ps fs]. apply (get_user_by_email_app_new us ps fs user). exact Hnew.
Qed.

(** ** Uploading *)

Lemma upload_photo_run (now : Z) (tok : token) (uuid_hex : string) (outcome : write_outcome)
    (file : UploadFile.t) (caption : option string) (s : Store) (user : User.t) :
  get_current_user now tok s = (inr user, s) →
  upload_photo now tok uuid_hex outcome file caption s =
    if bool_decide (UploadFile.content_type file ∈ Some <$> allowed_types) then
      match outcome with
      | Written =>
          let name := stored_name uuid_hex file in
          let photo :=
            Photo.mk (next_id (Photo.id <$> photos s)) (User.id user) name caption None now in
          (inr (UploadOut.mk (Photo.id photo) name ("/uploads/" +:+ name) caption now),
           with_photo photo (with_upload name s))
      | OpenFailed e =>
          (inl (mkHTTPException HTTP_500_INTERNAL_SERVER_ERROR
                  ("Failed to save file: " +:+ e) []), s)
      | CopyFailed e =>
          (inl (mkHTTPException HTTP_500_INTERNAL_SERVER_ERROR
                  ("Failed to save file: " +:+ e) []),
           with_upload (stored_name uuid_hex file) s)
      end
    else (inl (mkHTTPException HTTP_400_BAD_REQUEST "Only image files are allowed" []), s).
Proof.
  intros Hg. unfold upload_photo, bind at 1. rewrite Hg.
  destruct (bool_decide (UploadFile.content_type file ∈ Some <$> allowed_types));
    cbn [negb]; [|done].
  destruct outcome; reflexivity.
Qed.

Lemma stored_name_safe (uuid_hex : string) (file : UploadFile.t) :
  (∃ ext, stored_name uuid_hex file = uuid_hex +:+ String "."%char ext) ∧
  (no_sep uuid_hex → no_sep (stored_name uuid_hex file)).
Proof.
  unfold stored_name, no_sep. cbn zeta.
  destruct (splitext_ext (UploadFile.filename file)) as [_ Hext].
  case_bool_decide as He.
  - split; [by eexists|]. intros Hu. rewrite list_ascii_of_string_app.
    apply not_elem_of_app. split; [done|]. simpl.
    rewrite !not_elem_of_cons. repeat split; try discriminate. apply not_elem_of_nil.
  - destruct Hext as [?|[[rest Hrest] Hno]]; [done|]. split.
    + exists rest. by rewrite Hrest.
    + intros Hu. rewrite list_ascii_of_string_app. by apply not_elem_of_app.
Qed.

(** X13. For a token that resolves, [upload_photo] of a file whose content
    type is none of the four image types, or is missing, raises "Only image
    files are allowed" before anything is written: no file, no row. *)
Theorem upload_photo_rejects_content_type (now : Z) (tok : token) (uuid_hex : string)
    (outcome : write_outcome) (file : UploadFile.t) (caption : option string) (s : Store)
    (user : User.t) :
  get_current_user now tok s = (inr user, s) →
  UploadFile.content_type file ∉
    [Some "image/jpeg"; Some "image/png"; Some "image/gif"; Some "image/webp"] →
  upload_photo now tok uuid_hex outcome file caption s =
    (inl (mkHTTPException HTTP_400_BAD_REQUEST "Only image files are allowed" []), s).
Proof.
  intros Hg Hct. rewrite (upload_photo_run _ _ _ _ _ _ _ user Hg).
  by rewrite bool_decide_eq_false_2.
Qed.


(** X15. Whatever name the client gives the file, the name a successful
    [upload_photo] stores it under is the drawn [uuid_hex] followed by an
    extension that begins with a dot (".jpg" when the client's name has
    none); it has no path separator in it when [uuid_hex] has none, so the
    file lands in the upload directory itself. *)
Theorem upload_photo_name_safe (now : Z) (tok : token) (uuid_hex : string)
    (outcome : write_outcome) (file : UploadFile.t) (caption : option string) (s s' : Store)
    (out : UploadOut.t) :
  upload_photo now tok uuid_hex outcome file caption s = (inr out, s') →
  (∃ ext, UploadOut.filename out = uuid_hex +:+ String "."%char ext) ∧
  UploadOut.filename out ∈ uploads s' ∧
  (no_sep uuid_hex → no_sep (UploadOut.filename out)) ∧
  (snd (OsPath.splitext (UploadFile.filename file)) = "" →
   UploadOut.filename out = uuid_hex +:+ ".jpg").
Proof.
  destruct (get_current_user now tok s) as [[e|user] s0] eqn:Hg.
  { apply get_current_user_inl in Hg as Hs. destruct Hs as [-> _].
    destruct (protected_routes_unauthorized now tok s e Hg) as (_ & Hup & _).
    by rewrite Hup. }
  apply get_current_user_inr in Hg as Hs. destruct Hs as [-> _].
  rewrite (upload_photo_run _ _ _ _ _ _ _ user Hg).
  case_bool_decide; [|done]. destruct outcome; [|done..]. cbn zeta.
  intros [= <- <-]. cbn [UploadOut.filename with_photo with_upload uploads].
  destruct (stored_name_safe uuid_hex file) as [Hext Hsep].
  split; [exact Hext|]. split; [apply elem_of_union; left; by apply elem_of_singleton|].
  split; [exact Hsep|].
  intros Hnone. unfold stored_name. cbn zeta. by rewrite Hnone.
Qed.

(** X16. When the write of the file fails, [upload_photo] raises the 500
    with the text of the failure and adds no row.  If [open] failed the
    store is left as it was; if the copy failed the file that was opened
    stays in the upload directory, with no row naming it. *)
Theorem upload_photo_write_fails (now : Z) (tok : token) (uuid_hex e : string)
    (file : UploadFile.t) (caption : option string) (s : Store) (user : User.t) :
  get_current_user now tok s = (inr user, s) →
  UploadFile.content_type file ∈ Some <$> allowed_types →
  let failed :=
    mkHTTPException HTTP_500_INTERNAL_SERVER_ERROR ("Failed to save file: " +:+ e) [] in
  upload_photo now tok uuid_hex (OpenFailed e) file caption s = (inl failed, s) ∧
  ∃ s',
    upload_photo now tok uuid_hex (CopyFailed e) file caption s = (inl failed, s') ∧
    users s' = users s ∧ photos s' = photos s ∧
    uploads s' = {[ stored_name uuid_hex file ]} ∪ uploads s.
Proof.
  intros Hg Hct failed. rewrite !(upload_photo_run _ _ _ _ _ _ _ user Hg).
  rewrite bool_decide_eq_true_2 by done. split; [done|]. by eexists.
Qed.

(** ** Deleting and listing *)

Lemma get_current_user_users (now : Z) (tok : token) (s s' : Store) (user : User.t) :
  get_current_user now tok s = (inr user, s) →
  users s' = users s →
  get_current_user now tok s' = (inr user, s').
Proof.
  intros (_ & c & email & Hd & Hsub & Hu)%get_current_user_inr Heq.
  apply (get_current_user_resolves now tok c email); [done..|].
  unfold get_user_by_email in *. by rewrite Heq.
Qed.

Lemma delete_photo_run (now : Z) (tok : token) (photo_id : Z) (s : Store) (user : User.t) :
  get_current_user now tok s = (inr user, s) →
  delete_photo now tok photo_id s =
    match head (filter (λ p, Photo.id p = photo_id ∧ Photo.user_id p = User.id user)
                  (photos s)) with
    | None => (inl (mkHTTPException HTTP_404_NOT_FOUND "Photo not found" []), s)
    | Some photo =>
        (inr {[ "message" := RStr "Photo deleted successfully" ]},
         mkStore (users s)
           (filter (λ r, Photo.id r ≠ Photo.id photo) (photos s))
           (uploads s ∖ {[ Photo.filename photo ]}))
    end.
Proof.
  intros Hg. unfold delete_photo, bind at 1. rewrite Hg. run.
  by destruct (head _).
Qed.

(** X17. In a store that keeps its keys, [delete_photo] by the owner of a
    photo removes that row and no other, takes the file of the photo out of
    the upload directory and leaves the Identities alone; the same request
    again then raises "Photo not found". *)
Theorem delete_photo_removes (now : Z) (tok : token) (user : User.t) (p : Photo.t)
    (s : Store) :
  store_ok s →
  get_current_user now tok s = (inr user, s) →
  p ∈ photos s →
  Photo.user_id p = User.id user →
  ∃ s',
    delete_photo now tok (Photo.id p) s =
      (inr {[ "message" := RStr "Photo deleted successfully" ]}, s') ∧
    users s' = users s ∧
    (∀ q, q ∈ photos s' ↔ q ∈ photos s ∧ q ≠ p) ∧
    uploads s' = uploads s ∖ {[ Photo.filename p ]} ∧
    delete_photo now tok (Photo.id p) s' =
      (inl (mkHTTPException HTTP_404_NOT_FOUND "Photo not found" []), s').
Proof.
  intros (_ & _ & Hpids) Hg Hp Ho.
  assert (∀ q, q ∈ photos s → Photo.id q = Photo.id p → q = p) as Huniq.
  { intros q Hq Hid. by apply (NoDup_fmap_eq Photo.id (photos s)). }
  assert (head (filter (λ q, Photo.id q = Photo.id p ∧ Photo.user_id q = User.id user)
                  (photos s)) = Some p) as Hhead.
  { destruct (head _) as [q|] eqn:Hq.
    - apply head_filter_Some in Hq as [Hq [Hid _]]. f_equal. by apply Huniq.
    - destruct (proj1 (head_filter_None _ _) Hq p Hp). done. }
  eexists. split; [|split; [|split; [|split]]].
  - rewrite (delete_photo_run now tok _ s user Hg), Hhead. reflexivity.
  - done.
  - intros q. cbn [photos]. rewrite list_elem_of_filter. split.
    + intros [Hid Hq]. split; [done|]. by intros ->.
    + intros [Hq Hne]. split; [|done]. intros Hid. apply Hne. by apply Huniq.
  - done.
  - rewrite (delete_photo_run now tok _ _ user); [|by apply (get_current_user_users now tok s)].
    cbn [photos].
    assert (head (filter (λ q, Photo.id q = Photo.id p ∧ Photo.user_id q = User.id user)
                    (filter (λ r, Photo.id r ≠ Photo.id p) (photos s))) = None) as ->; [|done].
    apply head_filter_None. intros q [Hne _]%list_elem_of_filter [Hid _]. done.
Qed.


(** ** What a request does to the store *)

Lemma same_identity_refl (u : User.t) : same_identity u u.
Proof. by repeat split. Qed.

Lemma same_identity_trans (u v w : User.t) :
  same_identity u v → same_identity v w → same_identity u w.
Proof.
  intros (? & ? & ? & ? & ?) (? & ? & ? & ? & ?). repeat split; try congruence. auto.
Qed.

Lemma login_store (now : Z) (form_data : OAuth2PasswordRequestForm.t) (s : Store) :
  ∃ r, login now form_data s = (r, s).
Proof.
  unfold login. run. destruct (get_user_by_email s _); [|by eexists].
  destruct (verify_password _ _) as [verified|]; [|by eexists].
  destruct (negb verified); [by eexists|]. destruct (negb _); by eexists.
Qed.

Lemma login_json_store (now : Z) (user_data : UserLogin.t) (s : Store) :
  ∃ r, login_json now user_data s = (r, s).
Proof.
  unfold login_json. run. destruct (get_user_by_email s _); [|by eexists].
  destruct (verify_password _ _) as [verified|]; [|by eexists].
  destruct (negb verified); [by eexists|]. destruct (negb _); by eexists.
Qed.

Lemma request_password_reset_store (now : Z) (reset_data : PasswordResetRequest.t)
    (s : Store) :
  ∃ resp, request_password_reset now reset_data s = (inr resp, s).
Proof.
  unfold request_password_reset. run. destruct (get_user_by_email s _); by eexists.
Qed.

Lemma get_current_user_store (now : Z) (tok : token) (s : Store) :
  (∃ e, get_current_user now tok s = (inl e, s)) ∨
  (∃ user, get_current_user now tok s = (inr user, s) ∧ user ∈ users s).
Proof.
  destruct (get_current_user now tok s) as [[e|user] s'] eqn:Hg.
  - apply get_current_user_inl in Hg as [-> _]. left. by exists e.
  - apply get_current_user_inr in Hg as (-> & c & email & _ & _ & [Hin _]%get_user_by_email_Some).
    right. by exists user.
Qed.

(** Every request makes the writes of [write], one after the other, and
    nothing else of the store. *)
Lemma serve_writes (now : Z) (req : Request) (s : Store) :
  rtc write s (snd (serve now req s)).
Proof.
  destruct req as [| |salt user_data|form_data|user_data|tok|tok|reset_data|salt reset_data
                  |tok uuid_hex outcome file caption|tok skip limit|tok photo_id];
    cbn [serve outcome_of snd].
  - done.
  - done.
  - destruct (decide (registered s (UserCreate.email user_data))) as [Hreg|Hnew].
    + apply get_user_by_email_registered in Hreg as [u Hu].
      by rewrite (register_existing now salt user_data s u).
    + destruct (Passlib.accepts (UserCreate.password user_data)) eqn:Hacc;
        [|by rewrite register_unhashable].
      rewrite register_new by done. cbn [snd]. apply rtc_once.
      by apply (write_user s (User.mk _ _ _ true false now)).
  - by destruct (login_store now form_data s) as [r ->].
  - by destruct (login_json_store now user_data s) as [r ->].
  - unfold get_current_user_info, bind.
    by destruct (get_current_user_store now tok s) as [[e ->]|(user & -> & _)].
  - destruct (verify_email_cases now tok s) as [[e ->]|(c & email & user & _ & _ & _ & _ & _ & ->)];
      [done|].
    apply rtc_once, write_update. intros r. by repeat split.
  - by destruct (request_password_reset_store now reset_data s) as [r ->].
  - destruct (confirm_password_reset_cases now salt reset_data s)
      as [[e ->]|(c & email & user & _ & _ & _ & _ & _ & _ & ->)]; [done|].
    apply rtc_once, write_update. intros r. by repeat split.
  - destruct (get_current_user_store now tok s) as [[e Hg]|(user & Hg & Hin)].
    { destruct (protected_routes_unauthorized now tok s e Hg) as (_ & -> & _). done. }
    rewrite (upload_photo_run _ _ _ _ _ _ _ user Hg).
    case_bool_decide; [|done]. destruct outcome; cbn [snd]; [|done|].
    + eapply rtc_l; [apply write_file|]. apply rtc_once.
      by apply (write_photo _ _ user).
    + apply rtc_once, write_file.
  - unfold list_photos, bind at 1.
    by destruct (get_current_user_store now tok s) as [[e ->]|(user & -> & _)].
  - destruct (get_current_user_store now tok s) as [[e Hg]|(user & Hg & Hin)].
    { destruct (protected_routes_unauthorized now tok s e Hg) as (_ & _ & _ & ->). done. }
    rewrite (delete_photo_run now tok photo_id s user Hg).
    destruct (head _) as [photo|]; [|done]. apply rtc_once, write_delete.
Qed.

Lemma write_store_ok (s s' : Store) : write s s' → store_ok s → store_ok s'.
Proof.
  intros Hw (Hid & Hem & Hph). destruct Hw as [s u Hnew Hu _|s user change Hch|s name
    |s photo user _ _ Hp|s photo].
  - repeat split; cbn [users photos]; [| |done]; rewrite fmap_app; apply NoDup_app.
    + split; [done|]. split; [|apply NoDup_singleton].
      intros i Hi ->%list_elem_of_singleton. rewrite Hu in Hi. by apply next_id_fresh in Hi.
    + split; [done|]. split; [|apply NoDup_singleton].
      by intros e He ->%list_elem_of_singleton.
  - apply store_ok_updated; [intros r; apply Hch..|done].
  - done.
  - repeat split; cbn [with_photo users photos]; [done..|].
    rewrite fmap_app. apply NoDup_app. split; [done|]. split; [|apply NoDup_singleton].
    intros i Hi ->%list_elem_of_singleton. rewrite Hp in Hi. by apply next_id_fresh in Hi.
  - repeat split; cbn [users photos]; [done..|].
    assert (Photo.id <$> filter (λ r, Photo.id r ≠ Photo.id photo) (photos s)
              `sublist_of` Photo.id <$> photos s) as Hsub
      by apply fmap_sublist, sublist_filter.
    exact (sublist_NoDup _ _ Hph Hsub).
Qed.

Lemma write_owners (s s' : Store) : write s s' → owners_known s → owners_known s'.
Proof.
  intros Hw Hown. destruct Hw as [s u _ _ _|s user change Hch|s name
    |s photo user Hin Ho _|s photo]; intros p; cbn [with_photo with_upload updated users photos].
  - intros (u0 & Hu0 & Hid)%Hown. exists u0. split; [|done]. apply elem_of_app. by left.
  - intros (u0 & Hu0 & Hid)%Hown.
    exists (if bool_decide (User.id u0 = User.id user) then change u0 else u0). split.
    + apply list_elem_of_fmap. by exists u0.
    + case_bool_decide; [|done]. destruct (Hch u0) as [-> _]. done.
  - apply Hown.
  - intros [Hp| ->%list_elem_of_singleton]%elem_of_app; [by apply Hown|]. by exists user.
  - intros [_ Hp]%list_elem_of_filter. by apply Hown.
Qed.

Lemma write_lookup (s s' : Store) (email : string) (u : User.t) :
  write s s' → get_user_by_email s email = Some u →
  ∃ u', get_user_by_email s' email = Some u' ∧ same_identity u u'.
Proof.
  intros Hw Hu. destruct Hw as [s v _ _ _|s user change Hch|s name|s photo user _ _ _|s photo];
    try (exists u; split; [exact Hu|apply same_identity_refl]).
  - exists u. split; [|apply same_identity_refl]. unfold get_user_by_email in *.
    cbn [users]. rewrite filter_app. by destruct (filter _ (users s)).
  - exists (if bool_decide (User.id u = User.id user) then change u else u). split.
    + unfold get_user_by_email, updated in *. cbn [users]. rewrite head_filter_fmap.
      * by rewrite Hu.
      * intros r. case_bool_decide; [|done]. destruct (Hch r) as (_ & -> & _). done.
    + case_bool_decide; [apply Hch|apply same_identity_refl].
Qed.

Lemma write_identities (s s' : Store) (u : User.t) :
  write s s' → u ∈ users s → ∃ u', u' ∈ users s' ∧ same_identity u u'.
Proof.
  intros Hw Hu. destruct Hw as [s v _ _ _|s user change Hch|s name|s photo user _ _ _|s photo];
    try (exists u; split; [exact Hu|apply same_identity_refl]).
  - exists u. split; [|apply same_identity_refl]. apply elem_of_app. by left.
  - exists (if bool_decide (User.id u = User.id user) then change u else u). split.
    + apply list_elem_of_fmap. by exists u.
    + case_bool_decide; [apply Hch|apply same_identity_refl].
Qed.

Lemma write_active (s s' : Store) :
  write s s' → (∀ u, u ∈ users s → User.is_active u = true) →
  ∀ u, u ∈ users s' → User.is_active u = true.
Proof.
  intros Hw Hact. destruct Hw as [s v _ _ Hv|s user change Hch|s name|s photo user _ _ _|s photo];
    try exact Hact; intros u; cbn [updated users].
  - intros [Hu| ->%list_elem_of_singleton]%elem_of_app; [by apply Hact|done].
  - intros (r & -> & Hr)%list_elem_of_fmap. case_bool_decide; [|by apply Hact].
    destruct (Hch r) as (_ & _ & -> & _). by apply Hact.
Qed.

Lemma serve_all_writes (reqs : list (Z * Request)) (s : Store) :
  rtc write s (serve_all reqs s).
Proof.
  unfold serve_all. revert s. induction reqs as [|[now req] reqs IH]; intros s; simpl; [done|].
  etrans; [apply serve_writes|apply IH].
Qed.

(** X19. The routes keep the keys of the tables: if no two Identities
    share an id or an email and no two photos share an id, that is so after
    any sequence of requests. *)
Theorem serve_keeps_constraints (reqs : list (Z * Request)) (s : Store) :
  store_ok s → store_ok (serve_all reqs s).
Proof.
  intros Hok. induction (serve_all_writes reqs s) as [|s1 s2 s3 Hw _ IH]; [done|].
  apply IH. by apply (write_store_ok s1).
Qed.

(** X20. The routes keep every photo with an owner: if each photo row
    carries the id of an Identity of the store, that is so after any
    sequence of requests. *)
Theorem serve_keeps_owners (reqs : list (Z * Request)) (s : Store) :
  owners_known s → owners_known (serve_all reqs s).
Proof.
  intros Hown. induction (serve_all_writes reqs s) as [|s1 s2 s3 Hw _ IH]; [done|].
  apply IH. by apply (write_owners s1).
Qed.

(** X21. No route removes an Identity or changes its id, its email, its
    active flag or its creation time, and none takes a verification back:
    an Identity of the store is, in these respects, still there after any
    sequence of requests. *)
Theorem serve_keeps_identities (reqs : list (Z * Request)) (s : Store) (u : User.t) :
  u ∈ users s →
  ∃ u', u' ∈ users (serve_all reqs s) ∧ same_identity u u'.
Proof.
  intros Hu. revert u Hu.
  induction (serve_all_writes reqs s) as [s1|s1 s2 s3 Hw _ IH]; intros u Hu.
  - exists u. split; [done|apply same_identity_refl].
  - destruct (write_identities s1 s2 u Hw Hu) as (u1 & Hu1 & Hsame1).
    destruct (IH u1 Hu1) as (u2 & Hu2 & Hsame2).
    exists u2. split; [done|]. by apply (same_identity_trans u u1).
Qed.

(** X22. No route revokes a token: a token that resolves to an Identity
    resolves, at the same reading of the clock, to the same Identity after
    any sequence of requests, a password reset of that account among them. *)
Theorem serve_keeps_tokens (now : Z) (tok : token) (reqs : list (Z * Request)) (s : Store)
    (u : User.t) :
  get_current_user now tok s = (inr u, s) →
  ∃ u', get_current_user now tok (serve_all reqs s) = (inr u', serve_all reqs s) ∧
        same_identity u u'.
Proof.
  intros (_ & c & email & Hd & Hsub & Hu)%get_current_user_inr.
  assert (∃ u', get_user_by_email (serve_all reqs s) email = Some u' ∧ same_identity u u')
    as (u' & Hu' & Hsame).
  { revert u Hu. induction (serve_all_writes reqs s) as [s1|s1 s2 s3 Hw _ IH]; intros u Hu.
    - exists u. split; [done|apply same_identity_refl].
    - destruct (write_lookup s1 s2 email u Hw Hu) as (u1 & Hu1 & Hsame1).
      destruct (IH u1 Hu1) as (u2 & Hu2 & Hsame2).
      exists u2. split; [done|]. by apply (same_identity_trans u u1). }
  exists u'. split; [|done]. by apply (get_current_user_resolves now tok c email).
Qed.

(** X23. No route deactivates an account or makes an inactive one: if
    every Identity is active, every Identity is active after any sequence
    of requests, and [login] there never answers "Account is deactivated". *)
Theorem serve_keeps_active (reqs : list (Z * Request)) (s : Store) :
  (∀ u, u ∈ users s → User.is_active u = true) →
  (∀ u, u ∈ users (serve_all reqs s) → User.is_active u = true) ∧
  (∀ now form_data,
     fst (login now form_data (serve_all reqs s)) ≠
       inl (mkHTTPException HTTP_400_BAD_REQUEST "Account is deactivated" [])).
Proof.
  intros Hact.
  assert (∀ u, u ∈ users (serve_all reqs s) → User.is_active u = true) as Hact'.
  { induction (serve_all_writes reqs s) as [|s1 s2 s3 Hw _ IH]; [done|].
    apply IH. by apply (write_active s1). }
  split; [exact Hact'|]. intros now form_data. unfold login. run.
  destruct (get_user_by_email _ _) as [user|] eqn:Hu; [|done].
  apply get_user_by_email_Some in Hu as [Hin _].
  rewrite (Hact' user Hin). by destruct (verify_password _ _) as [[|]|].
Qed.

Lemma get_current_user_info_store (now : Z) (tok : token) (s : Store) :
  ∃ r, get_current_user_info now tok s = (r, s).
Proof.
  unfold get_current_user_info, bind.
  destruct (get_current_user_store now tok s) as [[e ->]|(user & -> & _)]; by eexists.
Qed.

Lemma list_photos_store (now : Z) (tok : token) (skip limit : Z) (s : Store) :
  ∃ r, list_photos now tok skip limit s = (r, s).
Proof.
  unfold list_photos, bind at 1.
  destruct (get_current_user_store now tok s) as [[e ->]|(user & -> & _)]; by eexists.
Qed.

(** An answer without error, or an error with the store it found. *)
Ltac unchanged :=
  run; unfold ret, raise; simpl; first [ by intros [=] | intros [= _ <-]; by left ].

(** X24. A request that is answered with an error leaves the store as it
    was, with one exception: an upload whose copy failed leaves the file it
    had opened. *)
Theorem serve_error_atomic (now : Z) (req : Request) (s s' : Store) (e : HTTPException) :
  serve now req s = (Some e, s') →
  s' = s ∨
  ∃ tok uuid_hex msg file caption,
    req = PostPhotosUpload tok uuid_hex (CopyFailed msg) file caption ∧
    s' = with_upload (stored_name uuid_hex file) s.
Proof.
  destruct req as [| |salt user_data|form_data|user_data|tok|tok|reset_data|salt reset_data
                  |tok uuid_hex outcome file caption|tok skip limit|tok photo_id];
    cbn [serve]; unfold outcome_of.
  - done.
  - done.
  - destruct (decide (registered s (UserCreate.email user_data))) as [Hreg|Hnew].
    + apply get_user_by_email_registered in Hreg as [u Hu].
      rewrite (register_existing now salt user_data s u) by done. unchanged.
    + destruct (Passlib.accepts (UserCreate.password user_data)) eqn:Hacc.
      * rewrite register_new by done. unchanged.
      * rewrite register_unhashable by done. unchanged.
  - destruct (login_store now form_data s) as [r ->]. unchanged.
  - destruct (login_json_store now user_data s) as [r ->]. unchanged.
  - destruct (get_current_user_info_store now tok s) as [r ->]. unchanged.
  - destruct (verify_email_cases now tok s) as [[e' ->]|(c & email & user & _ & _ & _ & _ & _ & ->)];
      unchanged.
  - destruct (request_password_reset_store now reset_data s) as [r ->]. unchanged.
  - destruct (confirm_password_reset_cases now salt reset_data s)
      as [[e' ->]|(c & email & user & _ & _ & _ & _ & _ & _ & ->)]; unchanged.
  - destruct (get_current_user_store now tok s) as [[e' Hg]|(user & Hg & Hin)].
    { destruct (protected_routes_unauthorized now tok s e' Hg) as (_ & -> & _). unchanged. }
    rewrite (upload_photo_run _ _ _ _ _ _ _ user Hg).
    case_bool_decide; [|unchanged].
    destruct outcome as [|msg|msg]; [unchanged..|].
    simpl. intros [= _ <-]. right. by exists tok, uuid_hex, msg, file, caption.
  - destruct (list_photos_store now tok skip limit s) as [r ->]. unchanged.
  - destruct (get_current_user_store now tok s) as [[e' Hg]|(user & Hg & Hin)].
    { destruct (protected_routes_unauthorized now tok s e' Hg) as (_ & _ & _ & ->). unchanged. }
    rewrite (delete_photo_run now tok photo_id s user Hg).
    destruct (head _) as [photo|]; unchanged.
Qed.

(** ** Concrete runs of the further properties *)

Example serve_session2 :
  serve_all session2 store2 =
    mkStore
      [ User.mk 1 "a@x.com" (Passlib.Bcrypt "salt9" "correct horse") true true 1000; bob ]
      [ Photo.mk 2 2 "2c3d.png" None None 1200;
        Photo.mk 3 1 "00ff.PNG" (Some "cat") None 2100 ]
      ({[ "00ff.PNG" ]} ∪ {[ "0a1b.jpg"; "2c3d.png" ]} ∖ {[ "0a1b.jpg" ]}).
Proof. vm_compute. reflexivity. Qed.

(** X1 at [store2]: [bob], deactivated, logs in with his password. *)
Lemma login_deactivated_witness :
  login 2000 (OAuth2PasswordRequestForm.mk "b@x.com" "hunter2") store2 =
    (inl (mkHTTPException HTTP_400_BAD_REQUEST "Account is deactivated" []), store2).
Proof.
  exact (proj1 (login_deactivated 2000 store2 bob "b@x.com" "hunter2"
                  eq_refl eq_refl eq_refl)).
Defined.

(** X3 at the claims of [alice]'s access token, a second after its expiry. *)
Lemma create_access_token_round_trip_witness :
  decode_token 5601 alice_token = None.
Proof.
  exact (create_access_token_round_trip 5601 2000 {[ "sub" := JStr "a@x.com" ]} None
           (app_claims_sub "a@x.com")).
Defined.

(** X4: a token asked for with no lifetime, an hour after it was issued. *)
Lemma create_access_token_zero_delta_witness :
  decode_token 5600 (create_access_token 2000 {[ "sub" := JStr "a@x.com" ]} (Some 0)) =
    Some (<["exp" := JInt 5600]> {[ "sub" := JStr "a@x.com" ]}).
Proof.
  refine (proj1 (create_access_token_zero_delta 5600 2000 {[ "sub" := JStr "a@x.com" ]}
                   (app_claims_sub "a@x.com") _) _); vm_compute; discriminate.
Defined.

(** X5 at [store2]: a token for [alice] under a guessed key. *)
Lemma unverified_token_refused_witness :
  Jose.verify forged_token SECRET_KEY [ALGORITHM] = None ∧
  get_current_user 2000 forged_token store2 = (inl credentials_exception, store2).
Proof.
  assert (Jose.verify forged_token SECRET_KEY [ALGORITHM] = None) as Hv by reflexivity.
  split; [exact Hv|].
  exact (proj1 (unverified_token_refused 2000 "salt" forged_token "new" store2 Hv)).
Defined.

(** X6 at [store2]: [alice]'s access token at [verify_email]. *)
Lemma verify_email_requires_purpose_witness :
  ¬ has_purpose alice_token "email_verification" ∧
  verify_email 2000 alice_token store2 =
    (inl (mkHTTPException HTTP_400_BAD_REQUEST "Invalid or expired verification token" []),
     store2).
Proof.
  assert (¬ has_purpose alice_token "email_verification") as Hno.
  { intros (c & [= <-] & Hty). vm_compute in Hty. discriminate. }
  split; [exact Hno|].
  exact (verify_email_requires_purpose 2000 alice_token store2 Hno).
Defined.

(** X7 at [store2]: [alice]'s access token at [confirm_password_reset]. *)
Lemma confirm_password_reset_requires_purpose_witness :
  ¬ has_purpose alice_token "password_reset" ∧
  confirm_password_reset 2000 "salt3" (PasswordResetConfirm.mk alice_token "new") store2 =
    (inl (mkHTTPException HTTP_400_BAD_REQUEST "Invalid or expired reset token" []), store2).
Proof.
  assert (¬ has_purpose alice_token "password_reset") as Hno.
  { intros (c & [= <-] & Hty). vm_compute in Hty. discriminate. }
  split; [exact Hno|].
  exact (confirm_password_reset_requires_purpose 2000 "salt3" alice_token "new" store2 Hno).
Defined.

(** X8 at [store2]: a verification token without a subject. *)
Lemma confirming_routes_subject_errors_witness :
  verify_email 2000 anonymous_verify_token store2 =
    (inl (mkHTTPException HTTP_400_BAD_REQUEST "Invalid token" []), store2).
Proof.
  refine (proj1 (confirming_routes_subject_errors 2000 "salt" anonymous_verify_token "new"
                   (issued_claims 1000 {[ "type" := JStr "email_verification" ]} None) store2
                   eq_refl (or_introl eq_refl)) eq_refl).
Defined.

(** X9 at [store0]: [alice] registers, verifies an hour later and looks
    at her account. *)
Lemma register_then_verify_witness :
  ∃ (r : UserRegisterResponse.t) (s1 s2 : Store),
    register 1000 "salt1" (UserCreate.mk "a@x.com" "pw123") store0 = (inr r, s1) ∧
    UserRegisterResponse.verify_token r = Some (verify_token_for 1000 "a@x.com") ∧
    verify_email 4600 (verify_token_for 1000 "a@x.com") s1 =
      (inr {[ "message" := RStr "Email verified successfully" ]}, s2) ∧
    get_current_user_info 5000 (access_token_for 4700 "a@x.com") s2 =
      (inr (UserRead.mk (UserRegisterResponse.id r) "a@x.com" true true 1000), s2).
Proof.
  refine (register_then_verify 1000 4600 4700 5000 "salt1" "a@x.com" "pw123" store0
            _ _ eq_refl _ _).
  - intros H. inversion H.
  - discriminate.
  - vm_compute. discriminate.
  - vm_compute. discriminate.
Defined.

(** X10 at [store2]: [alice] resets her password; a password of 73 bytes
    that shares the first 72 with another opens the account as well. *)
Lemma password_reset_round_trip_witness :
  ∃ s',
    confirm_password_reset 2300 "salt9"
      (PasswordResetConfirm.mk (reset_token_for 2200 "a@x.com") "correct horse") store2 =
      (inr {[ "message" := RStr "Password reset successfully" ]}, s') ∧
    login 2400 (OAuth2PasswordRequestForm.mk "a@x.com" "correct horse") s' =
      (inr (TokenOut.mk (access_token_for 2400 "a@x.com") "bearer"), s') ∧
    login 2400 (OAuth2PasswordRequestForm.mk "a@x.com" "pw123") s' =
      (inl (mkHTTPException HTTP_400_BAD_REQUEST "Incorrect email or password" []), s').
Proof.
  assert (2300 ≤ 2200 + timedelta 1 0) as Hle by (vm_compute; discriminate).
  assert ("a@x.com" ≠ "") as Hne by discriminate.
  destruct (proj2 (password_reset_round_trip 2200 2300 2400 "salt9" "a@x.com" "correct horse"
                     alice store2 eq_refl Hne eq_refl Hle)) as (s' & Hc & _ & Hlogin).
  exists s'. split; [exact Hc|]. split.
  - exact (Hlogin "correct horse" eq_refl).
  - exact (Hlogin "pw123" eq_refl).
Defined.

(** X11 at [store2]: the reset token of [alice] used twice. *)
Lemma reset_token_replay_witness :
  ∃ s1 s2,
    confirm_password_reset 2300 "salt8"
      (PasswordResetConfirm.mk (reset_token_for 2200 "a@x.com") "first") store2 =
      (inr {[ "message" := RStr "Password reset successfully" ]}, s1) ∧
    confirm_password_reset 5800 "salt9"
      (PasswordResetConfirm.mk (reset_token_for 2200 "a@x.com") "second") s1 =
      (inr {[ "message" := RStr "Password reset successfully" ]}, s2) ∧
    get_user_by_email s2 "a@x.com" =
      Some (User.set_hashed_password (Passlib.Bcrypt "salt9" "second") alice).
Proof.
  refine (reset_token_replay 2200 2300 5800 "salt8" "salt9" "a@x.com" "first" "second"
            alice store2 eq_refl _ eq_refl eq_refl _ _).
  - discriminate.
  - vm_compute. discriminate.
  - vm_compute. discriminate.
Defined.

(** X12 at [store0]: [alice]'s email registered twice. *)
Lemma register_twice_witness :
  ∃ r s1,
    register 1000 "salt1" (UserCreate.mk "a@x.com" "pw123") store0 = (inr r, s1) ∧
    length (users s1) = S (length (users store0)) ∧
    register 1001 "salt2" (UserCreate.mk "a@x.com" "other") s1 =
      (inl (mkHTTPException HTTP_400_BAD_REQUEST "Email already registered" []), s1).
Proof.
  refine (register_twice 1000 1001 "salt1" "salt2" "a@x.com" "pw123" "other" store0 _ eq_refl).
  intros H. inversion H.
Defined.

(** X13 at [store2]: [alice] uploads a text file. *)
Lemma upload_photo_rejects_content_type_witness :
  upload_photo 2100 alice_token "00ff" Written (UploadFile.mk "notes.txt" (Some "text/plain"))
    None store2 =
    (inl (mkHTTPException HTTP_400_BAD_REQUEST "Only image files are allowed" []), store2).
Proof.
  refine (upload_photo_rejects_content_type 2100 alice_token "00ff" Written
            (UploadFile.mk "notes.txt" (Some "text/plain")) None store2 alice eq_refl _).
  apply (bool_decide_unpack _). vm_compute. exact I.
Defined.


(** X15 at [store2]: the client calls the file "../my cat.PNG". *)
Lemma upload_photo_name_safe_witness :
  no_sep "00ff" ∧
  no_sep "00ff.PNG" ∧
  "00ff.PNG" ∈ uploads (with_photo (Photo.mk 3 1 "00ff.PNG" (Some "cat") None 2100)
                          (with_upload "00ff.PNG" store2)).
Proof.
  assert (no_sep "00ff") as Hsep by (apply (bool_decide_unpack _); vm_compute; exact I).
  assert (upload_photo 2100 alice_token "00ff" Written cat_file (Some "cat") store2 =
            (inr (UploadOut.mk 3 "00ff.PNG" "/uploads/00ff.PNG" (Some "cat") 2100),
             with_photo (Photo.mk 3 1 "00ff.PNG" (Some "cat") None 2100)
               (with_upload "00ff.PNG" store2))) as Hup by reflexivity.
  destruct (upload_photo_name_safe 2100 alice_token "00ff" Written cat_file (Some "cat")
              store2 _ _ Hup) as (_ & Hin & Hsafe & _).
  split; [exact Hsep|]. split; [exact (Hsafe Hsep)|exact Hin].
Defined.

(** X16 at [store2]: the disk is full while [alice]'s file is copied. *)
Lemma upload_photo_write_fails_witness :
  ∃ s',
    upload_photo 2100 alice_token "00ff" (CopyFailed "No space left on device") cat_file None
      store2 =
      (inl (mkHTTPException HTTP_500_INTERNAL_SERVER_ERROR
              "Failed to save file: No space left on device" []), s') ∧
    users s' = users store2 ∧ photos s' = photos store2 ∧
    uploads s' = {[ stored_name "00ff" cat_file ]} ∪ uploads store2.
Proof.
  assert (UploadFile.content_type cat_file ∈ Some <$> allowed_types) as Hct.
  { apply (bool_decide_unpack _). vm_compute. exact I. }
  exact (proj2 (upload_photo_write_fails 2100 alice_token "00ff" "No space left on device"
                  cat_file None store2 alice eq_refl Hct)).
Defined.

(** X17 at [store2]: [alice] deletes her photo, twice. *)
Lemma delete_photo_removes_witness :
  ∃ s',
    delete_photo 2000 alice_token 1 store2 =
      (inr {[ "message" := RStr "Photo deleted successfully" ]}, s') ∧
    users s' = users store2 ∧
    (∀ q, q ∈ photos s' ↔ q ∈ photos store2 ∧ q ≠ Photo.mk 1 1 "0a1b.jpg" (Some "sunset") None 1100) ∧
    uploads s' = uploads store2 ∖ {[ "0a1b.jpg" ]} ∧
    delete_photo 2000 alice_token 1 s' =
      (inl (mkHTTPException HTTP_404_NOT_FOUND "Photo not found" []), s').
Proof.
  assert (store_ok store2) as Hok.
  { repeat split; apply (bool_decide_unpack _); vm_compute; exact I. }
  refine (delete_photo_removes 2000 alice_token alice
            (Photo.mk 1 1 "0a1b.jpg" (Some "sunset") None 1100) store2 Hok eq_refl _ eq_refl).
  left.
Defined.


(** X19 at [store2] and the requests of [session2]. *)
Lemma serve_keeps_constraints_witness :
  store_ok store2 ∧ store_ok (serve_all session2 store2).
Proof.
  assert (store_ok store2) as Hok.
  { repeat split; apply (bool_decide_unpack _); vm_compute; exact I. }
  split; [exact Hok|]. exact (serve_keeps_constraints session2 store2 Hok).
Defined.

(** X20 at [store2] and the requests of [session2]. *)
Lemma serve_keeps_owners_witness :
  owners_known store2 ∧ owners_known (serve_all session2 store2).
Proof.
  assert (owners_known store2) as Hown.
  { intros p Hp. unfold store2 in Hp. cbn [photos] in Hp.
    apply elem_of_cons in Hp as [->|Hp]; [exists alice; split; [left|reflexivity]|].
    apply list_elem_of_singleton in Hp as ->. exists bob. split; [right; left|reflexivity]. }
  split; [exact Hown|]. exact (serve_keeps_owners session2 store2 Hown).
Defined.

(** X21 at [store2]: [alice] after the requests of [session2]. *)
Lemma serve_keeps_identities_witness :
  ∃ u', u' ∈ users (serve_all session2 store2) ∧ same_identity alice u'.
Proof.
  refine (serve_keeps_identities session2 store2 alice _). left.
Defined.

(** X22 at [store2]: [alice]'s access token after the requests of
    [session2], which reset her password. *)
Lemma serve_keeps_tokens_witness :
  ∃ u', get_current_user 2000 alice_token (serve_all session2 store2) =
          (inr u', serve_all session2 store2) ∧
        same_identity alice u'.
Proof.
  exact (serve_keeps_tokens 2000 alice_token session2 store2 alice eq_refl).
Defined.

(** X23 at the empty store: after a registration every Identity is active. *)
Lemma serve_keeps_active_witness :
  Forall (λ u, User.is_active u = true)
    (users (serve_all [(1000, PostRegister "salt1" (UserCreate.mk "a@x.com" "pw123"))]
              store0)).
Proof.
  apply Forall_forall.
  refine (proj1 (serve_keeps_active
                   [(1000, PostRegister "salt1" (UserCreate.mk "a@x.com" "pw123"))] store0 _)).
  intros u Hu. inversion Hu.
Defined.

(** X24 at [store2]: a failed copy leaves the file, a refused registration
    leaves nothing. *)
Lemma serve_error_atomic_witness :
  (store2 = store2 ∨
   ∃ tok uuid_hex msg file caption,
     PostRegister "salt3" (UserCreate.mk "a@x.com" "other") =
       PostPhotosUpload tok uuid_hex (CopyFailed msg) file caption ∧
     store2 = with_upload (stored_name uuid_hex file) store2) ∧
  serve 2100 (PostPhotosUpload alice_token "00ff" (CopyFailed "disk full") cat_file None)
    store2 =
    (Some (mkHTTPException HTTP_500_INTERNAL_SERVER_ERROR "Failed to save file: disk full" []),
     with_upload "00ff.PNG" store2).
Proof.
  split; [|reflexivity].
  exact (serve_error_atomic 3000 (PostRegister "salt3" (UserCreate.mk "a@x.com" "other"))
           store2 store2
           (mkHTTPException HTTP_400_BAD_REQUEST "Email already registered" []) eq_refl).
Defined.

(** ** One account at a time *)

Lemma updated_users (user : User.t) (change : User.t → User.t) (s : Store) (r : User.t) :
  store_ok s → user ∈ users s →
  r ∈ users (updated user change s) ↔ (r ∈ users s ∧ r ≠ user) ∨ r = change user.
Proof.
  intros (Hids & _ & _) Hin. unfold updated. cbn [users]. rewrite list_elem_of_fmap. split.
  - intros (r0 & -> & Hr0). case_bool_decide as Hid.
    + right. f_equal. by apply (NoDup_fmap_eq User.id (users s)).
    + left. split; [done|]. by intros ->.
  - intros [[Hr Hne]| ->].
    + exists r. split; [|done]. rewrite bool_decide_eq_false_2; [done|].
      intros Hid. apply Hne. by apply (NoDup_fmap_eq User.id (users s)).
    + exists user. split; [|done]. by rewrite bool_decide_eq_true_2.
Qed.

(** X25. In a store that keeps its keys, a successful [verify_email] or
    [confirm_password_reset] changes the row of one Identity and nothing
    else: every other row, every photo and every file is as before, and of
    the one row only the verified flag, or only the password hash, is new. *)
Theorem confirming_routes_touch_one (now : Z) (salt : string) (tok : token)
    (new_password : string) (s : Store) :
  store_ok s →
  (∀ resp s', verify_email now tok s = (inr resp, s') →
     ∃ user, user ∈ users s ∧ photos s' = photos s ∧ uploads s' = uploads s ∧
       ∀ r, r ∈ users s' ↔ (r ∈ users s ∧ r ≠ user) ∨ r = User.set_is_verified true user) ∧
  (∀ resp s',
     confirm_password_reset now salt (PasswordResetConfirm.mk tok new_password) s =
       (inr resp, s') →
     ∃ user, user ∈ users s ∧ photos s' = photos s ∧ uploads s' = uploads s ∧
       ∀ r, r ∈ users s' ↔
            (r ∈ users s ∧ r ≠ user) ∨
            r = User.set_hashed_password (Passlib.Bcrypt salt new_password) user).
Proof.
  intros Hok. split; intros resp s'.
  - destruct (verify_email_cases now tok s)
      as [[e ->]|(c & email & user & _ & _ & _ & _ & [Hin _]%get_user_by_email_Some & ->)];
      [done|].
    intros [= _ <-]. exists user. repeat (split; [done|]).
    intros r. by apply updated_users.
  - destruct (confirm_password_reset_cases now salt (PasswordResetConfirm.mk tok new_password) s)
      as [[e ->]|(c & email & user & _ & _ & _ & _ & [Hin _]%get_user_by_email_Some & _ & ->)];
      [done|].
    intros [= _ <-]. exists user. repeat (split; [done|]).
    intros r. by apply updated_users.
Qed.

(** X25 at [store2]: [alice] resets her password; [bob]'s row stays. *)
Lemma confirming_routes_touch_one_witness :
  store_ok store2 ∧
  ∃ user, user ∈ users store2 ∧
    ∀ r, r ∈ users (updated alice
                      (User.set_hashed_password (Passlib.Bcrypt "salt9" "correct horse"))
                      store2) ↔
         (r ∈ users store2 ∧ r ≠ user) ∨
         r = User.set_hashed_password (Passlib.Bcrypt "salt9" "correct horse") user.
Proof.
  assert (store_ok store2) as Hok.
  { repeat split; apply (bool_decide_unpack _); vm_compute; exact I. }
  split; [exact Hok|].
  destruct (proj2 (confirming_routes_touch_one 2300 "salt9" (reset_token_for 2200 "a@x.com")
                     "correct horse" store2 Hok) _ _ eq_refl) as (user & Hin & _ & _ & Hrows).
  exists user. split; [exact Hin|exact Hrows].
Defined.
